(** * NumberOfBuildingCrossing: a shallow embedding

    The script [NumberOfBuildingCrossing.py] filters the polygons tagged
    [building = 'yes'], computes their centroids and, for every ordered pair
    of centroid ids, counts the building polygons selected by an INTERSECT
    query against the line through the selected centroids.

    The arcpy geoprocessing calls are the environment of the script.  Their
    geometry (centroid of a polygon, does a polyline intersect a polygon) is
    kept abstract in [Section Script]; tables, layer selections, cursors and
    the two result dictionaries are modelled explicitly.  The result of
    [main] is the pair of dictionaries as they are handed to [pkl.dump];
    opening and writing the two files is not part of the model. *)

From stdpp Require Import base option list gmap strings.
From Stdlib Require Import ZArith Lia.

Local Open Scope string_scope.

(** ** Exceptions and the state-and-error monad *)

(** The Python exceptions the script can raise by itself. *)
Inductive exception :=
  | UnboundLocalError (var : string)
  | KeyError (key : nat).

Inductive result (A : Type) :=
  | Ok (a : A)
  | Raise (e : exception).
Arguments Ok {A} a.
Arguments Raise {A} e.

(** ** Feature-class schemas and [check_object_id] *)

(** What [arcpy.ListFields] yields for each field: its name and its type. *)
Record field := Field { name : string; type : string }.

(** [fields = [field.name for field in field_objects if field.type != 'Geometry']] *)
Definition field_names (field_objects : list field) : list string :=
  name <$> filter (λ f, type f ≠ "Geometry") field_objects.

(** [check_object_id(layer_in)]; a layer is seen through [arcpy.ListFields].
    When none of the three branches is taken, [points_id] is never bound and
    [return points_id] raises [UnboundLocalError]. *)
Definition check_object_id (layer_in : list field) : result string :=
  let fields := field_names layer_in in
  if decide ("OID" ∈ fields) then Ok "OID"
  else if decide ("OBJECTID" ∈ fields) then Ok "OBJECTID"
  else if decide ("ObjectID" ∈ fields) then Ok "ObjectID"
  else Raise (UnboundLocalError "points_id").

(** The layer has a field called [s], of whatever type. *)
Definition has_field (layer_in : list field) (s : string) : Prop :=
  s ∈ name <$> layer_in.

#[global] Instance has_field_dec layer_in s : Decision (has_field layer_in s).
Proof. unfold has_field. apply _. Defined.

(** The type of the field called [s] among those [check_object_id] looks at.
    arcpy reports the type 'OID' for the object id field of a table and for
    no other field. *)
Definition field_type (layer_in : list field) (s : string) : option string :=
  type <$> head (filter (λ f, name f = s ∧ type f ≠ "Geometry") layer_in).

Local Close Scope string_scope.

(** ** The arcpy geometry interface

    The geometric primitives the script delegates to arcpy: the point
    [FeatureToPoint_management(..., 'CENTROID')] places for a polygon, and
    whether a polygon is selected by
    [SelectLayerByLocation_management(overlap_type='INTERSECT')] against the
    polyline [arcpy.Polyline(array)] with the given vertex array. *)
Class Geometry := {
  coord : Type;
  polygon : Type;
  centroid : polygon → coord * coord;
  intersects : list (coord * coord) → polygon → bool
}.

(** A point is its [(SHAPE@X, SHAPE@Y)] pair. *)
Abbreviation point := (coord * coord)%type.

(** A feature class as its rows in table order, each with the value it holds
    in the id field the rows are addressed by: its object id, unless said
    otherwise. *)
Abbreviation table A := (list (nat * A)).

Section Script.
Context `{G : Geometry}.

(** A row of the input polygon feature class: the [building] attribute
    ([None] for NULL), the footprint, and the number the row holds in the
    attribute of a given name.  Only attributes called like an id field are
    ever read, and they are taken to hold non-negative integers. *)
Record feature := Feature {
  building : option string;
  SHAPE : polygon;
  attribute : string → nat
}.

(** A feature class created by a geoprocessing tool numbers its rows 1, 2, ...
    in the order they are written. *)
Definition new_table {A} (rows : list A) : table A :=
  zip (seq 1 (length rows)) rows.

(** [SelectLayerByAttribute(filtering_layer, 'NEW_SELECTION', "building = 'yes'")]
    followed by [CopyFeatures_management(filtering_layer, buildings)]. *)
Definition clause_filtering (f : feature) : Prop := building f = Some "yes"%string.

#[global] Instance clause_filtering_dec f : Decision (clause_filtering f).
Proof. unfold clause_filtering. apply _. Defined.

Definition buildings_only (buildings_not_filtered : list feature) : table polygon :=
  new_table (SHAPE <$> filter clause_filtering buildings_not_filtered).

(** [FeatureToPoint_management(buildings, centroids, 'CENTROID')]: one point
    per building, written in table order. *)
Definition feature_to_point (buildings : table polygon) : table point :=
  new_table ((λ r, centroid r.2) <$> buildings).

(** The rows of a feature class made from the features [tagged], each with
    the value of the field [id_field] in place of its object id.  A field of
    type 'OID' is the object id itself; any other field of that name is an
    attribute copied from the input, taken to be an integer one. *)
Definition keyed_by {A} (fields : list field) (id_field : string)
    (tagged : list feature) (rows : table A) : table A :=
  if decide (field_type fields id_field = Some "OID"%string) then rows
  else zip ((λ f, attribute f id_field) <$> tagged) rows.*2.

(** The feature classes the tools create under [fc_out], as far as the script
    looks at them: the fields [arcpy.ListFields] reports. *)
Record workspace := Workspace {
  buildings_fields : list field;
  centroids_fields : list field
}.

(** The mutable state the analysis loop runs on: the rows currently visible
    through the two feature layers (their selection; a layer whose selection
    is empty shows no row), the polylines
    [create_line] has copied to [in_memory\line] so far, and [dict_out]. *)
Record state := State {
  layer_centroids : table point;
  layer_polygons : table polygon;
  lines : list (list point);
  dict_out : gmap nat (list nat)
}.

Definition M (A : Type) : Type := state → result (A * state).

Definition ret {A} (a : A) : M A := λ s, Ok (a, s).

Definition bind {A B} (m : M A) (k : A → M B) : M B :=
  λ s, match m s with
       | Ok (a, s') => k a s'
       | Raise e => Raise e
       end.

Notation "'do' x <- m ;; k" := (bind m (λ x, k))
  (at level 10, x name, m at level 99, k at level 200).
Notation "'run' m ;; k" := (bind m (λ _, k))
  (at level 10, m at level 99, k at level 200).

(** [for x in xs: body(x)] *)
Fixpoint for_each {A} (xs : list A) (body : A → M unit) : M unit :=
  match xs with
  | [] => ret tt
  | x :: xs => run body x ;; for_each xs body
  end.

(** [range(1, n + 1)] *)
Definition range1 (n : nat) : list nat := seq 1 n.

(** [clause_centroids = '{0} = {1} Or {0} = {2}'.format(centroids_id_field, i, j)],
    on a row given with its value of [centroids_id_field]. *)
Definition clause_centroids (i j : nat) (row : nat * point) : Prop :=
  row.1 = i ∨ row.1 = j.

#[global] Instance clause_centroids_dec i j row : Decision (clause_centroids i j row).
Proof. unfold clause_centroids. apply _. Defined.

(** [SelectLayerByAttribute_management(layer_centroids, 'NEW_SELECTION', clause)]:
    the new selection is taken from the rows of the layer's source table,
    [centroids], given with their values of the field named in the clause. *)
Definition select_centroids (centroids : table point) (i j : nat) : M unit :=
  λ s, Ok (tt, State (filter (clause_centroids i j) centroids)
                     (layer_polygons s) (lines s) (dict_out s)).

(** [create_line(points_layer)]: the cursor visits the selected points in
    table order, each is appended (as a copy) to the array, and [line] is
    rebound to the polyline of the array so far.  With no selected row [line]
    is never bound and copying it raises. *)
Definition create_line : M (list point) :=
  λ s, let array_tmp := (layer_centroids s).*2 in
       match array_tmp with
       | [] => Raise (UnboundLocalError "line"%string)
       | _ => Ok (array_tmp, State (layer_centroids s) (layer_polygons s)
                                   (lines s ++ [array_tmp]) (dict_out s))
       end.

(** [SelectLayerByLocation_management(layer_polygons, overlap_type='INTERSECT',
    select_features=line_layer, selection_type='NEW_SELECTION')] *)
Definition select_polygons (buildings : table polygon) (line : list point) : M unit :=
  λ s, Ok (tt, State (layer_centroids s)
                     (filter (λ r, intersects line r.2 = true) buildings)
                     (lines s) (dict_out s)).

(** [n_crossed_building = 0; for row in cursor: n_crossed_building += 1] *)
Definition count_selected : M nat :=
  λ s, Ok (foldl (λ n_crossed_building _, n_crossed_building + 1) 0
                 (layer_polygons s), s).

(** [dict_out[i] = []] *)
Definition new_row (i : nat) : M unit :=
  λ s, Ok (tt, State (layer_centroids s) (layer_polygons s) (lines s)
                     (<[i := []]> (dict_out s))).

(** [dict_out[i].append(n_crossed_building)] *)
Definition append_count (i n_crossed_building : nat) : M unit :=
  λ s, match dict_out s !! i with
       | Some row => Ok (tt, State (layer_centroids s) (layer_polygons s) (lines s)
                                   (<[i := row ++ [n_crossed_building]]> (dict_out s)))
       | None => Raise (KeyError i)
       end.

(** The body of the inner loop, lines 147-168. *)
Definition pair_step (centroids : table point) (buildings : table polygon)
    (i j : nat) : M unit :=
  run select_centroids centroids i j ;;
  do line <- create_line ;;
  run select_polygons buildings line ;;
  do n_crossed_building <- count_selected ;;
  append_count i n_crossed_building.

(** The two nested loops, with the iterated sequences as parameters. *)
Definition analysis_over (centroids : table point) (buildings : table polygon)
    (rows cols : list nat) : M unit :=
  for_each rows (λ i,
    run new_row i ;;
    for_each cols (λ j, pair_step centroids buildings i j)).

(** Lines 143-168: both loops run over [range(1, n_centroids+1)]. *)
Definition analysis (centroids : table point) (buildings : table polygon)
    (n_centroids : nat) : M unit :=
  analysis_over centroids buildings (range1 n_centroids) (range1 n_centroids).

(** Lines 177-181: [geo_coord[row[0]] = (row[1], row[2])] over all centroids,
    [row[0]] being the value of [centroids_id_field]. *)
Definition coordinates (centroids : table point) : gmap nat point :=
  foldl (λ geo_coord row, <[row.1 := row.2]> geo_coord) ∅ centroids.

(** What [main] leaves behind: the two dictionaries it hands to [pkl.dump],
    and the polylines it built on the way. *)
Record outputs := Outputs {
  BuildingsIntersections : gmap nat (list nat);
  BuildingCentroids : gmap nat point;
  polylines : list (list point)
}.

(** The state right after the two [MakeFeatureLayer_management] calls: fresh
    layers show every row of their source. *)
Definition fresh_layers (centroids : table point) (buildings : table polygon) : state :=
  State centroids buildings [] ∅.

(** [main(buildings_not_filtered, fc_out, text_file_path)], up to the two
    dictionaries.  The where-clauses of the loop and the cursor that fills
    [geo_coord] address the centroids by the field [check_object_id] named,
    whether or not it is the object id; [buildings_id_field] only names the
    column of the cursor whose rows are counted. *)
Definition main (buildings_not_filtered : list feature) (fc_out : workspace)
    : result outputs :=
  let tagged := filter clause_filtering buildings_not_filtered in
  let buildings := buildings_only buildings_not_filtered in
  let centroids := feature_to_point buildings in
  let n_centroids := length centroids in
  match check_object_id (centroids_fields fc_out) with
  | Raise e => Raise e
  | Ok centroids_id_field =>
    match check_object_id (buildings_fields fc_out) with
    | Raise e => Raise e
    | Ok buildings_id_field =>
      let centroid_rows :=
        keyed_by (centroids_fields fc_out) centroids_id_field tagged centroids in
      match analysis centroid_rows buildings n_centroids
                     (fresh_layers centroid_rows buildings) with
      | Raise e => Raise e
      | Ok (_, s) =>
        Ok (Outputs (dict_out s) (coordinates centroid_rows) (lines s))
      end
    end
  end.

(** ** What the loop computes, as plain functions *)

(** The vertex array of the polyline built for the ids [i] and [j]. *)
Definition line_of (centroids : table point) (i j : nat) : list point :=
  (filter (clause_centroids i j) centroids).*2.

(** The number the script records for the ids [i] and [j]. *)
Definition n_crossed (centroids : table point) (buildings : table polygon)
    (i j : nat) : nat :=
  length (filter (λ r, intersects (line_of centroids i j) r.2 = true) buildings).

(** The number of buildings other than [i] and [j] that the same line
    intersects. *)
Definition n_between (centroids : table point) (buildings : table polygon)
    (i j : nat) : nat :=
  length (filter (λ r, intersects (line_of centroids i j) r.2 = true ∧ r.1 ≠ i ∧ r.1 ≠ j)
                 buildings).

(** [matrix[i][j]], 1-indexed in both coordinates. *)
Definition entry (matrix : gmap nat (list nat)) (i j : nat) : option nat :=
  match matrix !! i with
  | Some row => match j with 0 => None | S j' => row !! j' end
  | None => None
  end.

End Script.

Arguments feature {G}.
Arguments Feature {G} building SHAPE attribute.
Arguments workspace : clear implicits.
Arguments Workspace : clear implicits.

(** ** A reference geometry on the integer grid

    To run the script on concrete footprints the interface is instantiated
    with polygons given as vertex rings with integer coordinates.  A segment
    intersects a polygon when it meets one of its edges or starts inside it
    (any contact counts); the centroid is the centre of gravity of the ring,
    and coordinates are whole numbers.
    What the INTERSECT query does with the polyline of a single vertex is a
    parameter of the instance: [single_vertex_is_point = true] treats it as
    that point, [false] as an empty geometry that selects nothing. *)
Module Grid.
Local Open Scope Z_scope.

Definition zpoint : Type := Z * Z.

Definition cross (o a b : zpoint) : Z :=
  (a.1 - o.1) * (b.2 - o.2) - (a.2 - o.2) * (b.1 - o.1).

(** [p], known to be collinear with [a] and [b], lies between them. *)
Definition on_segment (a b p : zpoint) : bool :=
  (Z.min a.1 b.1 <=? p.1) && (p.1 <=? Z.max a.1 b.1) &&
  (Z.min a.2 b.2 <=? p.2) && (p.2 <=? Z.max a.2 b.2).

Definition opposite (d1 d2 : Z) : bool :=
  ((0 <? d1) && (d2 <? 0)) || ((d1 <? 0) && (0 <? d2)).

(** The closed segments [p1 p2] and [p3 p4] share a point. *)
Definition segments_intersect (p1 p2 p3 p4 : zpoint) : bool :=
  let d1 := cross p3 p4 p1 in
  let d2 := cross p3 p4 p2 in
  let d3 := cross p1 p2 p3 in
  let d4 := cross p1 p2 p4 in
  (opposite d1 d2 && opposite d3 d4)
  || ((d1 =? 0) && on_segment p3 p4 p1)
  || ((d2 =? 0) && on_segment p3 p4 p2)
  || ((d3 =? 0) && on_segment p1 p2 p3)
  || ((d4 =? 0) && on_segment p1 p2 p4).

(** The edges of a ring, the last vertex joined back to the first. *)
Definition edges (ring : list zpoint) : list (zpoint * zpoint) :=
  match ring with
  | [] => []
  | v :: vs => zip ring (vs ++ [v])
  end.

(** The horizontal ray from [p] towards larger x crosses the edge [e]. *)
Definition crosses_ray (p : zpoint) (e : zpoint * zpoint) : bool :=
  let a := e.1 in
  let b := e.2 in
  negb (Bool.eqb (p.2 <? a.2) (p.2 <? b.2)) &&
  (let dy := b.2 - a.2 in
   let lhs := (p.1 - a.1) * dy in
   let rhs := (b.1 - a.1) * (p.2 - a.2) in
   if 0 <? dy then lhs <? rhs else rhs <? lhs).

Definition inside (p : zpoint) (ring : list zpoint) : bool :=
  Nat.odd (length (filter (λ e, crosses_ray p e = true) (edges ring))).

Definition segment_intersects_polygon (p q : zpoint) (ring : list zpoint) : bool :=
  existsb (λ e, segments_intersect p q e.1 e.2) (edges ring) || inside p ring.

Definition grid_intersects (single_vertex_is_point : bool)
    (line : list zpoint) (ring : list zpoint) : bool :=
  match line with
  | [] => false
  | [p] => single_vertex_is_point && segment_intersects_polygon p p ring
  | _ => existsb (λ sg, segment_intersects_polygon sg.1 sg.2 ring)
                 (zip line (tail line))
  end.

Definition sum (zs : list Z) : Z := foldr Z.add 0 zs.

(** Twice the signed area of the ring. *)
Definition area2 (ring : list zpoint) : Z :=
  sum ((λ e, e.1.1 * e.2.2 - e.2.1 * e.1.2) <$> edges ring).

(** Centre of gravity of a ring of non-zero area.  The divisions are exact
    on the squares used below; no statement below reads the centroid of a
    ring of zero area. *)
Definition grid_centroid (ring : list zpoint) : zpoint :=
  let a2 := area2 ring in
  (sum ((λ e, (e.1.1 + e.2.1) * (e.1.1 * e.2.2 - e.2.1 * e.1.2)) <$> edges ring) / (3 * a2),
   sum ((λ e, (e.1.2 + e.2.2) * (e.1.1 * e.2.2 - e.2.1 * e.1.2)) <$> edges ring) / (3 * a2)).

(** Fewer than three distinct vertices. *)
Definition degenerate (ring : list zpoint) : bool :=
  bool_decide (length (remove_dups ring) < 3)%nat.

Definition grid (single_vertex_is_point : bool) : Geometry :=
  {| coord := Z;
     polygon := list zpoint;
     centroid := grid_centroid;
     intersects := grid_intersects single_vertex_is_point |}.

(** The square footprint of side 2 with lower left corner [(x, y)]. *)
Definition square (x y : Z) : list zpoint :=
  [(x, y); (x + 2, y); (x + 2, y + 2); (x, y + 2)].

End Grid.

(** ** Concrete runs *)

(** Fields of feature classes created in a file geodatabase. *)
Definition gdb : workspace :=
  Workspace
    [Field "OBJECTID" "OID"; Field "Shape" "Geometry"; Field "building" "String";
     Field "Shape_Length" "Double"; Field "Shape_Area" "Double"]
    [Field "OBJECTID" "OID"; Field "Shape" "Geometry"; Field "building" "String";
     Field "ORIG_FID" "Integer"].

(** Fields of a shapefile: the id field is called [FID]. *)
Definition shapefile_fields : list field :=
  [Field "FID" "OID"; Field "Shape" "Geometry"; Field "building" "String"].

(** A file geodatabase whose feature classes carry, beside the object id
    'OBJECTID', an integer attribute called 'OID' copied from the input. *)
Definition gdb_with_oid_attribute : workspace :=
  Workspace
    [Field "OBJECTID" "OID"; Field "Shape" "Geometry"; Field "OID" "Integer";
     Field "building" "String"]
    [Field "OBJECTID" "OID"; Field "Shape" "Geometry"; Field "OID" "Integer";
     Field "building" "String"; Field "ORIG_FID" "Integer"].

(** A polygon tagged as a building, its integer attributes all 0. *)
Definition yes {G : Geometry} (footprint : polygon) : feature :=
  Feature (Some "yes"%string) footprint (λ _, 0).

(** Scenario A: three squares far apart, their centroids on one straight
    line, the second between the first and the third. *)
Definition scenario_A (b : bool) : list (@feature (Grid.grid b)) :=
  [yes (G := Grid.grid b) (Grid.square 0 0); yes (G := Grid.grid b) (Grid.square 10 0); yes (G := Grid.grid b) (Grid.square 20 0)].

(** Scenario B: two overlapping buildings and no others. *)
Definition scenario_B (b : bool) : list (@feature (Grid.grid b)) :=
  [yes (G := Grid.grid b) (Grid.square 0 0); yes (G := Grid.grid b) (Grid.square 1 1)].

(** A footprint with only two distinct vertices, next to a square. *)
Definition sliver : list Grid.zpoint := [(0, 10); (4, 10); (0, 10)]%Z.

Definition with_sliver (b : bool) : list (@feature (Grid.grid b)) :=
  [yes (G := Grid.grid b) sliver; yes (G := Grid.grid b) (Grid.square 0 0)].

(** Scenario A with two polygons that are not tagged as buildings, one of
    them lying across the line of centroids. *)
Definition scenario_A_mixed (b : bool) : list (@feature (Grid.grid b)) :=
  [yes (G := Grid.grid b) (Grid.square 0 0);
   Feature (G := Grid.grid b) (Some "no"%string) (Grid.square 5 0) (λ _, 0);
   yes (G := Grid.grid b) (Grid.square 10 0);
   Feature (G := Grid.grid b) None (Grid.square 15 0) (λ _, 0);
   yes (G := Grid.grid b) (Grid.square 20 0)].

(** An input without a single polygon tagged as a building. *)
Definition untagged_only (b : bool) : list (@feature (Grid.grid b)) :=
  [Feature (G := Grid.grid b) (Some "no"%string) (Grid.square 0 0) (λ _, 0);
   Feature (G := Grid.grid b) None (Grid.square 5 0) (λ _, 0)].

(** Scenario A with the squares carrying the numbers 101, 102 and 103 in
    their integer attributes, as an attribute 'OID' of the input would. *)
Definition scenario_A_numbered (b : bool) : list (@feature (Grid.grid b)) :=
  [Feature (G := Grid.grid b) (Some "yes"%string) (Grid.square 0 0) (λ _, 101);
   Feature (G := Grid.grid b) (Some "yes"%string) (Grid.square 10 0) (λ _, 102);
   Feature (G := Grid.grid b) (Some "yes"%string) (Grid.square 20 0) (λ _, 103)].

(** * Properties *)

Section Proofs.
Context `{G : Geometry}.

(** ** Tables *)

Lemma new_table_fst {A} (rows : list A) : (new_table rows).*1 = seq 1 (length rows).
Proof. unfold new_table. apply fst_zip. by rewrite length_seq. Qed.

Lemma new_table_snd {A} (rows : list A) : (new_table rows).*2 = rows.
Proof. unfold new_table. apply snd_zip. by rewrite length_seq. Qed.

Lemma length_new_table {A} (rows : list A) : length (new_table rows) = length rows.
Proof. by rewrite <- (length_fmap fst), new_table_fst, length_seq. Qed.

Lemma new_table_lookup {A} (rows : list A) k x :
  rows !! k = Some x → new_table rows !! k = Some (S k, x).
Proof.
  intros Hx. unfold new_table. apply lookup_zip_with_Some.
  exists (S k), x. split; [done|]. split; [|done].
  apply lookup_seq. split; [done|]. by apply lookup_lt_Some in Hx.
Qed.

Lemma new_table_elem {A} (rows : list A) i :
  1 ≤ i ≤ length rows → ∃ x, (i, x) ∈ new_table rows.
Proof.
  intros Hi. destruct i as [|k]; [lia|].
  destruct (lookup_lt_is_Some_2 rows k) as [x Hx]; [lia|].
  exists x. apply list_elem_of_lookup. exists k. by apply new_table_lookup.
Qed.

Lemma new_table_NoDup {A} (rows : list A) : NoDup (new_table rows).*1.
Proof. rewrite new_table_fst. apply NoDup_seq. Qed.

Lemma length_buildings_only (fs : list feature) :
  length (buildings_only fs) = length (filter clause_filtering fs).
Proof. unfold buildings_only. by rewrite length_new_table, length_fmap. Qed.

Lemma length_feature_to_point (b : table polygon) :
  length (feature_to_point b) = length b.
Proof. unfold feature_to_point. by rewrite length_new_table, length_fmap. Qed.

Lemma filter_elem_nonempty {A} (P : A → Prop) `{∀ x, Decision (P x)} (l : list A) x :
  x ∈ l → P x → filter P l ≠ [].
Proof.
  intros Hx HP Hnil.
  assert (Hin : x ∈ filter P l) by (by apply list_elem_of_filter).
  rewrite Hnil in Hin. by apply elem_of_nil in Hin.
Qed.

(** The line for a pair with a valid first id has at least one vertex, so
    [create_line] finds [line] bound. *)
Lemma line_of_nonempty (b : table polygon) i j :
  1 ≤ i ≤ length b → line_of (feature_to_point b) i j ≠ [].
Proof.
  intros Hi. unfold line_of, feature_to_point.
  destruct (new_table_elem ((λ r, centroid r.2) <$> b) i) as [p Hp].
  { by rewrite length_fmap. }
  intros Hnil. apply fmap_nil_inv in Hnil.
  revert Hnil. eapply filter_elem_nonempty; [exact Hp|by left].
Qed.

(** The selection does not depend on the order the two ids are given in. *)
Lemma line_of_comm (c : table point) i j : line_of c i j = line_of c j i.
Proof.
  unfold line_of. f_equal. apply list_filter_iff.
  intros r. unfold clause_centroids. tauto.
Qed.

Lemma n_crossed_comm (c : table point) (b : table polygon) i j :
  n_crossed c b i j = n_crossed c b j i.
Proof. unfold n_crossed. by rewrite (line_of_comm c i j). Qed.

Lemma n_crossed_le (c : table point) (b : table polygon) i j :
  n_crossed c b i j ≤ length b.
Proof. unfold n_crossed. apply length_filter. Qed.

(** ** Folding insertions into a dictionary *)

Lemma foldl_insert_notin {A B} (key : A → nat) (val : A → B) xs (m : gmap nat B) k :
  (∀ x, x ∈ xs → key x ≠ k) →
  foldl (λ m x, <[key x := val x]> m) m xs !! k = m !! k.
Proof.
  revert m. induction xs as [|x xs IH]; intros m Hk; simpl; [done|].
  rewrite IH.
  - apply lookup_insert_ne. apply Hk. by left.
  - intros y Hy. apply Hk. by right.
Qed.

Lemma foldl_insert_in {A B} (key : A → nat) (val : A → B) xs (m : gmap nat B) x :
  x ∈ xs → (∀ y, y ∈ xs → key y = key x → val y = val x) →
  foldl (λ m x, <[key x := val x]> m) m xs !! key x = Some (val x).
Proof.
  revert m x. induction xs as [|a xs IH]; intros m x Hx Hval; simpl.
  { by apply elem_of_nil in Hx. }
  destruct (decide (key x ∈ key <$> xs)) as [Hin|Hnin].
  - apply list_elem_of_fmap in Hin as (y & Hkey & Hy).
    rewrite Hkey, <- (Hval y); [|by right|done].
    apply IH; [done|]. intros z Hz Hzy.
    rewrite (Hval z), (Hval y); [done|by right|done|by right|congruence].
  - assert (Hfresh : ∀ y, y ∈ xs → key y ≠ key x).
    { intros y Hy Hkey. apply Hnin. apply list_elem_of_fmap. by exists y. }
    apply elem_of_cons in Hx as [->|Hx]; [|by destruct (Hfresh x Hx)].
    rewrite foldl_insert_notin; [apply lookup_insert_eq|done].
Qed.

(** ** The analysis loop *)

Lemma foldl_count {A} (rows : list A) (a : nat) :
  foldl (λ n _, n + 1) a rows = a + length rows.
Proof.
  revert a. induction rows as [|r rows IH]; intros a; simpl.
  - lia.
  - rewrite IH. lia.
Qed.

Lemma count_selected_length (s : state) :
  count_selected s = Ok (length (layer_polygons s), s).
Proof. unfold count_selected. by rewrite foldl_count. Qed.

Lemma pair_step_spec (c : table point) (b : table polygon) i j (s : state) row :
  dict_out s !! i = Some row → line_of c i j ≠ [] →
  pair_step c b i j s =
    Ok (tt, State (filter (clause_centroids i j) c)
                  (filter (λ r, intersects (line_of c i j) r.2 = true) b)
                  (lines s ++ [line_of c i j])
                  (<[i := row ++ [n_crossed c b i j]]> (dict_out s))).
Proof.
  intros Hrow Hline. unfold pair_step, bind, select_centroids, create_line. simpl.
  fold (line_of c i j). destruct (line_of c i j) as [|p line] eqn:E; [done|].
  rewrite foldl_count. unfold append_count. simpl.
  rewrite Hrow. unfold n_crossed. by rewrite E.
Qed.

Lemma inner_loop_spec (c : table point) (b : table polygon) i cols :
  ∀ (s : state) row,
    dict_out s !! i = Some row → (∀ j, j ∈ cols → line_of c i j ≠ []) →
    ∃ s', for_each cols (pair_step c b i) s = Ok (tt, s')
          ∧ dict_out s' = <[i := row ++ (n_crossed c b i <$> cols)]> (dict_out s)
          ∧ lines s' = lines s ++ (line_of c i <$> cols).
Proof.
  induction cols as [|j cols IH]; intros s row Hrow Hline; simpl.
  - exists s. rewrite !app_nil_r. split; [done|]. split; [|done].
    symmetry. by apply insert_id.
  - unfold bind at 1. rewrite (pair_step_spec c b i j s row Hrow); [|apply Hline; by left].
    edestruct IH as (s' & Hrun & Hdict & Hlines); [..|exists s'; split; [exact Hrun|]].
    + simpl. apply lookup_insert_eq.
    + intros j' Hj'. apply Hline. by right.
    + simpl in Hdict, Hlines. rewrite Hdict, Hlines, insert_insert_eq, <- !app_assoc.
      done.
Qed.

Lemma analysis_over_spec (c : table point) (b : table polygon) rows cols :
  ∀ s : state,
    (∀ i j, i ∈ rows → j ∈ cols → line_of c i j ≠ []) →
    ∃ s', analysis_over c b rows cols s = Ok (tt, s')
          ∧ dict_out s' = foldl (λ d i, <[i := n_crossed c b i <$> cols]> d) (dict_out s) rows
          ∧ lines s' = lines s ++ concat ((λ i, line_of c i <$> cols) <$> rows).
Proof.
  unfold analysis_over.
  induction rows as [|i rows IH]; intros s Hline; simpl.
  - exists s. by rewrite app_nil_r.
  - unfold bind at 1 2, new_row at 1.
    edestruct (inner_loop_spec c b i cols) as (s1 & Hrun1 & Hdict1 & Hlines1);
      [..|rewrite Hrun1].
    + simpl. apply lookup_insert_eq.
    + intros j Hj. apply Hline; [by left|done].
    + simpl in Hdict1, Hlines1. rewrite insert_insert_eq in Hdict1.
      destruct (IH s1) as (s' & Hrun & Hdict & Hlines).
      { intros i' j Hi' Hj. apply Hline; [by right|done]. }
      exists s'. split; [exact Hrun|]. rewrite Hdict, Hlines, Hdict1, Hlines1.
      by rewrite <- app_assoc.
Qed.

Lemma rows_lookup_in (f : nat → list nat) rows (d : gmap nat (list nat)) i :
  i ∈ rows → foldl (λ d i, <[i := f i]> d) d rows !! i = Some (f i).
Proof.
  intros Hi. apply (foldl_insert_in (λ i, i) f rows d i Hi). by intros y _ ->.
Qed.

Lemma rows_lookup_notin (f : nat → list nat) rows (d : gmap nat (list nat)) i :
  i ∉ rows → foldl (λ d i, <[i := f i]> d) d rows !! i = d !! i.
Proof.
  intros Hi. apply (foldl_insert_notin (λ i, i) f rows d i). by intros x Hx ->.
Qed.

Lemma elem_of_range1 n i : i ∈ range1 n ↔ 1 ≤ i ≤ n.
Proof. unfold range1. rewrite elem_of_seq. lia. Qed.

(** ** The run of [main] *)

Lemma main_spec (fs : list feature) (ws : workspace) cid bid :
  check_object_id (centroids_fields ws) = Ok cid →
  field_type (centroids_fields ws) cid = Some "OID"%string →
  check_object_id (buildings_fields ws) = Ok bid →
  let b := buildings_only fs in
  let c := feature_to_point b in
  let n := length (filter clause_filtering fs) in
  main fs ws =
    Ok (Outputs (foldl (λ d i, <[i := n_crossed c b i <$> range1 n]> d) ∅ (range1 n))
                (coordinates c)
                (concat ((λ i, line_of c i <$> range1 n) <$> range1 n))).
Proof.
  intros Hc Hoid Hb b c n. unfold main. rewrite Hc, Hb.
  unfold keyed_by. rewrite decide_True; [|done]. fold b. fold c.
  assert (Hn : length c = n).
  { unfold c, b, n. by rewrite length_feature_to_point, length_buildings_only. }
  rewrite Hn. unfold analysis.
  destruct (analysis_over_spec c b (range1 n) (range1 n) (fresh_layers c b))
    as (s' & Hrun & Hdict & Hlines).
  { intros i j Hi _. apply line_of_nonempty. apply elem_of_range1 in Hi.
    unfold b. rewrite length_buildings_only. exact Hi. }
  rewrite Hrun, Hdict, Hlines. done.
Qed.

Lemma matrix_row (f : nat → list nat) n i :
  foldl (λ d i, <[i := f i]> d) (∅ : gmap nat (list nat)) (range1 n) !! i =
    if decide (1 ≤ i ≤ n) then Some (f i) else None.
Proof.
  case_decide as Hi.
  - apply rows_lookup_in. by apply elem_of_range1.
  - rewrite rows_lookup_notin; [done|]. by rewrite elem_of_range1.
Qed.

Lemma range1_lookup (f : nat → nat) n j :
  1 ≤ j ≤ n → (f <$> range1 n) !! (j - 1) = Some (f j).
Proof.
  intros Hj. rewrite list_lookup_fmap. unfold range1.
  rewrite lookup_seq_lt; [|lia]. simpl. f_equal. f_equal. lia.
Qed.

Lemma matrix_entry (g : nat → nat → nat) n i j :
  1 ≤ i ≤ n → 1 ≤ j ≤ n →
  entry (foldl (λ d i, <[i := g i <$> range1 n]> d) ∅ (range1 n)) i j = Some (g i j).
Proof.
  intros Hi Hj. unfold entry. rewrite (matrix_row (λ i, g i <$> range1 n)).
  rewrite decide_True; [|done].
  destruct j as [|j']; [lia|].
  rewrite <- (range1_lookup (g i) n (S j')); [|done]. f_equal. lia.
Qed.

(** ** The loops on any centroid table: completion or an unbound [line] *)

Lemma pair_step_unbound (c : table point) (b : table polygon) i j (s : state) :
  line_of c i j = [] → pair_step c b i j s = Raise (UnboundLocalError "line").
Proof.
  intros Hline. unfold pair_step, bind, select_centroids, create_line. simpl.
  fold (line_of c i j). by rewrite Hline.
Qed.

Lemma inner_loop_cases (c : table point) (b : table polygon) i cols :
  ∀ (s : state) row,
    dict_out s !! i = Some row →
    (∃ s', for_each cols (pair_step c b i) s = Ok (tt, s')
           ∧ dict_out s' = <[i := row ++ (n_crossed c b i <$> cols)]> (dict_out s)
           ∧ lines s' = lines s ++ (line_of c i <$> cols))
    ∨ for_each cols (pair_step c b i) s = Raise (UnboundLocalError "line").
Proof.
  induction cols as [|j cols IH]; intros s row Hrow.
  - left. apply inner_loop_spec; [done|]. intros j Hj. by apply elem_of_nil in Hj.
  - cbn [for_each]. unfold bind at 1 2.
    destruct (decide (length (line_of c i j) = 0)) as [Hnil|Hcons].
    + right. rewrite pair_step_unbound; [done|]. by apply length_zero_iff_nil.
    + assert (Hline : line_of c i j ≠ []).
      { intros Hline. by rewrite Hline in Hcons. }
      rewrite (pair_step_spec c b i j s row Hrow Hline).
      match goal with |- context [for_each cols _ ?s1] =>
        destruct (IH s1 (row ++ [n_crossed c b i j]))
          as [(s' & Hrun & Hdict & Hlines)|Hraise]
      end.
      * simpl. apply lookup_insert_eq.
      * left. exists s'. split; [exact Hrun|]. simpl in Hdict, Hlines.
        rewrite Hdict, Hlines, insert_insert_eq, fmap_cons, <- !app_assoc. done.
      * by right.
Qed.

Lemma analysis_over_cases (c : table point) (b : table polygon) rows cols :
  ∀ s : state,
    (∃ s', analysis_over c b rows cols s = Ok (tt, s')
           ∧ dict_out s' = foldl (λ d i, <[i := n_crossed c b i <$> cols]> d) (dict_out s) rows
           ∧ lines s' = lines s ++ concat ((λ i, line_of c i <$> cols) <$> rows))
    ∨ analysis_over c b rows cols s = Raise (UnboundLocalError "line").
Proof.
  unfold analysis_over.
  set (body := λ i, bind (new_row i) (λ _, for_each cols (λ j, pair_step c b i j))).
  induction rows as [|i rows IH]; intros s.
  - left. exists s. simpl. by rewrite app_nil_r.
  - set (s0 := State (layer_centroids s) (layer_polygons s) (lines s)
                     (<[i := []]> (dict_out s))).
    assert (Hstep : for_each (i :: rows) body s =
                    match for_each cols (pair_step c b i) s0 with
                    | Ok (_, s1) => for_each rows body s1
                    | Raise e => Raise e
                    end) by reflexivity.
    rewrite Hstep.
    destruct (inner_loop_cases c b i cols s0 [])
      as [(s1 & Hrun1 & Hdict1 & Hlines1)|Hraise].
    + simpl. apply lookup_insert_eq.
    + rewrite Hrun1. simpl in Hdict1, Hlines1. rewrite insert_insert_eq in Hdict1.
      destruct (IH s1) as [(s' & Hrun & Hdict & Hlines)|Hraise]; [|by right].
      left. exists s'. split; [exact Hrun|]. rewrite Hdict, Hlines, Hdict1, Hlines1.
      simpl. by rewrite <- app_assoc.
    + rewrite Hraise. by right.
Qed.

(** With the two id fields found, [main] either returns the dictionaries of
    the loops over the centroids keyed by the field found, or stops at an
    unbound [line]. *)
Lemma main_cases (fs : list feature) (ws : workspace) cid bid :
  check_object_id (centroids_fields ws) = Ok cid →
  check_object_id (buildings_fields ws) = Ok bid →
  let b := buildings_only fs in
  let c := keyed_by (centroids_fields ws) cid (filter clause_filtering fs)
                    (feature_to_point b) in
  let n := length (filter clause_filtering fs) in
  main fs ws =
    Ok (Outputs (foldl (λ d i, <[i := n_crossed c b i <$> range1 n]> d) ∅ (range1 n))
                (coordinates c)
                (concat ((λ i, line_of c i <$> range1 n) <$> range1 n)))
  ∨ main fs ws = Raise (UnboundLocalError "line").
Proof.
  intros Hc Hb b c n. unfold main. rewrite Hc, Hb.
  rewrite length_feature_to_point, length_buildings_only.
  fold b. fold c. fold n. unfold analysis.
  destruct (analysis_over_cases c b (range1 n) (range1 n) (fresh_layers c b))
    as [(s' & Hrun & Hdict & Hlines)|Hraise].
  - left. rewrite Hrun, Hdict, Hlines. done.
  - right. by rewrite Hraise.
Qed.

(** ** The coordinate dictionary *)

Lemma new_table_lookup_eq {A} (rows : list A) k :
  new_table rows !! k = (λ x, (S k, x)) <$> rows !! k.
Proof.
  destruct (rows !! k) as [x|] eqn:E; simpl.
  - by apply new_table_lookup.
  - apply lookup_ge_None. rewrite length_new_table. by apply lookup_ge_None.
Qed.

Lemma new_table_elem_inv {A} (rows : list A) i x :
  (i, x) ∈ new_table rows → ∃ k, i = S k ∧ rows !! k = Some x.
Proof.
  intros Hin. apply list_elem_of_lookup in Hin as [k Hk].
  rewrite new_table_lookup_eq in Hk. exists k.
  destruct (rows !! k) as [y|]; simpl in Hk; [|done].
  by injection Hk as -> ->.
Qed.

Lemma coordinates_new_table (ps : list point) i :
  coordinates (new_table ps) !! i = match i with 0 => None | S k => ps !! k end.
Proof.
  unfold coordinates.
  destruct i as [|k]; [|destruct (ps !! k) as [p|] eqn:E].
  - rewrite (foldl_insert_notin fst snd); [done|].
    intros [i x] Hx Hi. apply new_table_elem_inv in Hx as (k & -> & _). done.
  - apply (foldl_insert_in fst snd (new_table ps) ∅ (S k, p)).
    + apply list_elem_of_lookup. exists k. by apply new_table_lookup.
    + intros [i x] Hx Hi. simpl in Hi. subst i.
      apply new_table_elem_inv in Hx as (k' & [= <-] & Hx). simpl. congruence.
  - rewrite (foldl_insert_notin fst snd); [done|].
    intros [i x] Hx Hi. simpl in Hi. subst i.
    apply new_table_elem_inv in Hx as (k' & [= <-] & Hx). congruence.
Qed.

Lemma centroid_rows (fs : list feature) :
  (λ r : nat * polygon, centroid r.2) <$> buildings_only fs =
  (λ f, centroid (SHAPE f)) <$> filter clause_filtering fs.
Proof.
  unfold buildings_only.
  change (λ r : nat * polygon, centroid r.2) with (centroid ∘ (snd : nat * polygon → polygon)).
  by rewrite list_fmap_compose, new_table_snd, <- list_fmap_compose.
Qed.

Lemma coordinates_main (fs : list feature) i :
  coordinates (feature_to_point (buildings_only fs)) !! i =
    match i with
    | 0 => None
    | S k => (λ f, centroid (SHAPE f)) <$> filter clause_filtering fs !! k
    end.
Proof.
  unfold feature_to_point. rewrite coordinates_new_table, centroid_rows.
  destruct i as [|k]; [done|]. by rewrite list_lookup_fmap.
Qed.

Lemma concat_rows_prod {A} (g : nat → nat → A) (rows cols : list nat) :
  concat ((λ i, g i <$> cols) <$> rows) = (λ ij, g ij.1 ij.2) <$> list_prod rows cols.
Proof.
  induction rows as [|i rows IH]; [done|].
  rewrite fmap_cons. cbn [concat list_prod]. rewrite fmap_app, IH. f_equal.
  change (map (λ y, (i, y)) cols) with ((λ y, (i, y)) <$> cols).
  by rewrite <- list_fmap_compose.
Qed.

(** ** The claims about the matrix and the coordinate table *)

(** C3. The matrix [main] produces is symmetric: whenever [main] returns,
    for all distinct ids [i], [j] in 1..n the entries [matrix[i][j]] and
    [matrix[j][i]] exist and are equal, because the selection
    "id = i Or id = j" - hence the line built from it - is the same for both
    orders; and [main] does return when the id field it finds is the object
    id. *)
Theorem matrix_symmetric (fs : list feature) (ws : workspace) :
  (∀ out, main fs ws = Ok out →
     ∀ i j, 1 ≤ i ≤ length (filter clause_filtering fs) →
            1 ≤ j ≤ length (filter clause_filtering fs) → i ≠ j →
       ∃ k, entry (BuildingsIntersections out) i j = Some k
            ∧ entry (BuildingsIntersections out) j i = Some k)
  ∧ (∀ cid bid,
       check_object_id (centroids_fields ws) = Ok cid →
       field_type (centroids_fields ws) cid = Some "OID"%string →
       check_object_id (buildings_fields ws) = Ok bid →
       ∃ out, main fs ws = Ok out).
Proof.
  split.
  - intros out Hmain i j Hi Hj _.
    destruct (check_object_id (centroids_fields ws)) as [cid|e] eqn:Hc.
    2:{ unfold main in Hmain. by rewrite Hc in Hmain. }
    destruct (check_object_id (buildings_fields ws)) as [bid|e] eqn:Hb.
    2:{ unfold main in Hmain. by rewrite Hc, Hb in Hmain. }
    destruct (main_cases fs ws cid bid Hc Hb) as [Hok|Hraise];
      [|by rewrite Hraise in Hmain].
    rewrite Hok in Hmain. injection Hmain as <-. simpl.
    eexists. split; [by apply (matrix_entry (n_crossed _ _))|].
    rewrite (matrix_entry (n_crossed _ _)); [|done..].
    by rewrite n_crossed_comm.
  - intros cid bid Hc Hoid Hb. eexists. by eapply main_spec.
Qed.

(** Where the id field found is the object id, the coordinate table has
    exactly the keys 1..n, the k-th tagged polygon's centroid under key k; the
    matrix has exactly the keys 1..n, and the row of id [i] is a sequence of n
    numbers whose j-th entry is the size of the INTERSECT selection the script
    recorded for the pair (i, j). *)
Theorem outputs_shape (fs : list feature) (ws : workspace) cid bid :
  check_object_id (centroids_fields ws) = Ok cid →
  field_type (centroids_fields ws) cid = Some "OID"%string →
  check_object_id (buildings_fields ws) = Ok bid →
  let b := buildings_only fs in
  let c := feature_to_point b in
  let n := length (filter clause_filtering fs) in
  ∃ out, main fs ws = Ok out
    ∧ (∀ i, is_Some (BuildingCentroids out !! i) ↔ 1 ≤ i ≤ n)
    ∧ (∀ k f, filter clause_filtering fs !! k = Some f →
         BuildingCentroids out !! S k = Some (centroid (SHAPE f)))
    ∧ (∀ i, is_Some (BuildingsIntersections out !! i) ↔ 1 ≤ i ≤ n)
    ∧ (∀ i, 1 ≤ i ≤ n →
         ∃ row, BuildingsIntersections out !! i = Some row
           ∧ length row = n
           ∧ ∀ j, 1 ≤ j ≤ n → row !! (j - 1) = Some (n_crossed c b i j)).
Proof.
  intros Hc Hoid Hb b c n. eexists. split; [by eapply main_spec|]. simpl.
  fold b. fold c. fold n. split_and!.
  - intros i. unfold c, b. rewrite coordinates_main. destruct i as [|k]; simpl.
    + split; [by intros [? ?]|lia].
    + rewrite fmap_is_Some, lookup_lt_is_Some. fold n. lia.
  - intros k f Hk. unfold c, b. rewrite coordinates_main. by rewrite Hk.
  - intros i. rewrite (matrix_row (λ i, n_crossed c b i <$> range1 n)).
    case_decide; [done|]. split; [by intros [? ?]|done].
  - intros i Hi. exists (n_crossed c b i <$> range1 n). split_and!.
    + rewrite (matrix_row (λ i, n_crossed c b i <$> range1 n)).
      by rewrite decide_True.
    + unfold range1. by rewrite length_fmap, length_seq.
    + intros j Hj. by apply range1_lookup.
Qed.

(** C5, as amended.  The loop visits every ordered pair (i, j) of ids in
    1..n, the pairs with i >= j included, in row-major order, and builds one
    polyline for each: n * n polylines in all.  Row [i] receives n numbers,
    one for each j in 1..n, the j-th being the size of the INTERSECT selection
    for the polyline of (i, j).  One run of the loop body makes that one
    selection, appends its size to row [i] and writes to no other row: the
    entry [matrix[j][i]] is computed again when (j, i) is visited. *)
Theorem one_polyline_per_ordered_pair (fs : list feature) (ws : workspace) cid bid :
  check_object_id (centroids_fields ws) = Ok cid →
  field_type (centroids_fields ws) cid = Some "OID"%string →
  check_object_id (buildings_fields ws) = Ok bid →
  let b := buildings_only fs in
  let c := feature_to_point b in
  let n := length (filter clause_filtering fs) in
  ∃ out, main fs ws = Ok out
    ∧ polylines out = (λ ij, line_of c ij.1 ij.2) <$> list_prod (range1 n) (range1 n)
    ∧ length (polylines out) = n * n
    ∧ (∀ i, 1 ≤ i ≤ n →
         BuildingsIntersections out !! i = Some (n_crossed c b i <$> range1 n))
    ∧ (∀ i j (s : state) row, 1 ≤ i ≤ n → dict_out s !! i = Some row →
         ∃ s', pair_step c b i j s = Ok (tt, s')
           ∧ layer_polygons s' = filter (λ r, intersects (line_of c i j) r.2 = true) b
           ∧ dict_out s' !! i = Some (row ++ [length (layer_polygons s')])
           ∧ ∀ k, k ≠ i → dict_out s' !! k = dict_out s !! k).
Proof.
  intros Hc Hoid Hb b c n. eexists. split; [by eapply main_spec|]. simpl.
  fold b. fold c. fold n. split_and!.
  - by rewrite concat_rows_prod.
  - rewrite concat_rows_prod, length_fmap, length_prod. unfold range1.
    by rewrite length_seq.
  - intros i Hi. rewrite (matrix_row (λ i, n_crossed c b i <$> range1 n)).
    by rewrite decide_True.
  - intros i j s row Hi Hrow. eexists. split.
    + apply (pair_step_spec c b i j s row Hrow). apply line_of_nonempty.
      unfold b. by rewrite length_buildings_only.
    + simpl. split_and!; [done|apply lookup_insert_eq|].
      intros k Hk. by apply lookup_insert_ne.
Qed.

(** C6, as amended.  The script does not look at the shape of a polygon:
    every input polygon tagged [building = 'yes'], whatever its vertices, is a
    row of the buildings feature class the INTERSECT queries run against and,
    the id field found being the object id, has an id in 1..n, its centroid
    in the coordinate table and a full row of the matrix; no polygon is
    rejected and the run raises nothing. *)
Theorem every_tagged_polygon_is_kept (fs : list feature) (ws : workspace) cid bid :
  check_object_id (centroids_fields ws) = Ok cid →
  field_type (centroids_fields ws) cid = Some "OID"%string →
  check_object_id (buildings_fields ws) = Ok bid →
  let n := length (filter clause_filtering fs) in
  ∃ out, main fs ws = Ok out ∧
    ∀ f, f ∈ fs → building f = Some "yes"%string →
      ∃ i, 1 ≤ i ≤ n
        ∧ (i, SHAPE f) ∈ buildings_only fs
        ∧ BuildingCentroids out !! i = Some (centroid (SHAPE f))
        ∧ ∃ row, BuildingsIntersections out !! i = Some row ∧ length row = n.
Proof.
  intros Hc Hoid Hb n. eexists. split; [by eapply main_spec|]. simpl. fold n.
  intros f Hf Hyes.
  assert (Hin : f ∈ filter clause_filtering fs) by (by apply list_elem_of_filter).
  apply list_elem_of_lookup in Hin as [k Hk].
  assert (Hlt : k < n) by (by apply lookup_lt_Some in Hk).
  exists (S k). split_and!; [lia|lia|..].
  - apply list_elem_of_lookup. exists k. unfold buildings_only.
    apply new_table_lookup. rewrite list_lookup_fmap. by rewrite Hk.
  - rewrite coordinates_main. by rewrite Hk.
  - eexists. split.
    + rewrite (matrix_row (λ i, n_crossed _ _ i <$> range1 n)).
      rewrite decide_True; [done|lia].
    + unfold range1. by rewrite length_fmap, length_seq.
Qed.

(** Whatever the two layers have selected and whatever [dict_out] holds when
    the loops start, the loops over ids in 1..n complete and the number
    recorded for a pair is [n_crossed], a function of the buildings alone. *)
Lemma counts_independent_of_earlier_pairs (fs : list feature)
    (rows cols : list nat) (s : state) :
  let b := buildings_only fs in
  let c := feature_to_point b in
  (∀ i, i ∈ rows → 1 ≤ i ≤ length (filter clause_filtering fs)) →
  ∃ s', analysis_over c b rows cols s = Ok (tt, s') ∧
    ∀ i, i ∈ rows → dict_out s' !! i = Some (n_crossed c b i <$> cols).
Proof.
  intros b c Hrows.
  destruct (analysis_over_spec c b rows cols s) as (s' & Hrun & Hdict & _).
  { intros i j Hi _. apply line_of_nonempty. unfold b.
    rewrite length_buildings_only. by apply Hrows. }
  exists s'. split; [done|]. intros i Hi. rewrite Hdict.
  by apply (rows_lookup_in (λ i, n_crossed c b i <$> cols)).
Qed.

Lemma buildings_only_filter (fs : list feature) :
  buildings_only (filter clause_filtering fs) = buildings_only fs.
Proof.
  unfold buildings_only. do 2 f_equal. rewrite list_filter_filter.
  apply list_filter_iff. intros f. tauto.
Qed.

Lemma filter_clause_filtering_idemp (fs : list feature) :
  filter clause_filtering (filter clause_filtering fs) = filter clause_filtering fs.
Proof. rewrite list_filter_filter. apply list_filter_iff. intros f. tauto. Qed.

Lemma foldl_insert_lookup_elem (t : table point) (m : gmap nat point) k p :
  foldl (λ geo_coord row, <[row.1 := row.2]> geo_coord) m t !! k = Some p →
  (k, p) ∈ t ∨ m !! k = Some p.
Proof.
  revert m. induction t as [|[a x] t IH]; intros m Hk; simpl in Hk; [by right|].
  apply IH in Hk as [Hin|Hm]; [left; by right|].
  destruct (decide (a = k)) as [->|Hne].
  - rewrite lookup_insert_eq in Hm. injection Hm as ->. left. by left.
  - rewrite lookup_insert_ne in Hm; [by right|done].
Qed.

(** Whatever the centroids are keyed by, every entry of [geo_coord] is a row
    of the centroid table. *)
Lemma coordinates_lookup_elem (t : table point) k p :
  coordinates t !! k = Some p → (k, p) ∈ t.
Proof.
  intros Hk. apply foldl_insert_lookup_elem in Hk as [Hin|Hm]; [done|].
  by rewrite lookup_empty in Hm.
Qed.

Lemma keyed_by_snd {A} fields id_field (tagged : list feature) (rows : table A) :
  length tagged = length rows → (keyed_by fields id_field tagged rows).*2 = rows.*2.
Proof.
  intros Hlen. unfold keyed_by. case_decide; [done|].
  apply snd_zip. rewrite !length_fmap. lia.
Qed.

Lemma buildings_only_elem (fs : list feature) r :
  r ∈ buildings_only fs →
  ∃ f, f ∈ fs ∧ building f = Some "yes"%string ∧ r.2 = SHAPE f.
Proof.
  destruct r as [i g]. intros Hr.
  apply new_table_elem_inv in Hr as (k & -> & Hk).
  rewrite list_lookup_fmap in Hk.
  destruct (filter clause_filtering fs !! k) as [f|] eqn:E; [|done].
  injection Hk as <-. exists f.
  apply list_elem_of_lookup_2, list_elem_of_filter in E as [Hyes Hf]. done.
Qed.

(** C10. Both outputs are computed from the polygons tagged
    [building = 'yes'] only: [main] gives the same result on the input with
    every other polygon removed, the polygons the INTERSECT query counts and
    the points the centroids are taken from all stem from tagged polygons,
    and so does every entry of the coordinate table. *)
Theorem only_buildings_contribute (fs : list feature) (ws : workspace) :
  main fs ws = main (filter clause_filtering fs) ws
  ∧ (∀ r, r ∈ buildings_only fs →
       ∃ f, f ∈ fs ∧ building f = Some "yes"%string ∧ r.2 = SHAPE f)
  ∧ (∀ r, r ∈ feature_to_point (buildings_only fs) →
       ∃ f, f ∈ fs ∧ building f = Some "yes"%string ∧ r.2 = centroid (SHAPE f))
  ∧ (∀ out i p, main fs ws = Ok out → BuildingCentroids out !! i = Some p →
       ∃ f, f ∈ fs ∧ building f = Some "yes"%string ∧ p = centroid (SHAPE f)).
Proof.
  assert (Hrow : ∀ k p,
            ((λ f : feature, centroid (SHAPE f)) <$> filter clause_filtering fs) !! k = Some p →
            ∃ f, f ∈ fs ∧ building f = Some "yes"%string ∧ p = centroid (SHAPE f)).
  { intros k p Hk. rewrite list_lookup_fmap in Hk.
    destruct (filter clause_filtering fs !! k) as [f|] eqn:E; [|done].
    injection Hk as <-. exists f.
    apply list_elem_of_lookup_2, list_elem_of_filter in E as [Hyes Hf]. done. }
  split_and!.
  - unfold main. by rewrite buildings_only_filter, filter_clause_filtering_idemp.
  - apply buildings_only_elem.
  - intros [i p] Hr. unfold feature_to_point in Hr.
    apply new_table_elem_inv in Hr as (k & -> & Hk).
    rewrite centroid_rows in Hk. by apply (Hrow k).
  - intros out i p Hmain Hp. unfold main in Hmain.
    destruct (check_object_id (centroids_fields ws)); [|done].
    destruct (check_object_id (buildings_fields ws)); [|done].
    destruct (analysis _ _ _ _) as [[[] s']|]; [|done].
    injection Hmain as <-. simpl in Hp. apply coordinates_lookup_elem in Hp.
    apply (list_elem_of_fmap_2 snd) in Hp. simpl in Hp.
    rewrite keyed_by_snd in Hp.
    2:{ by rewrite length_feature_to_point, length_buildings_only. }
    unfold feature_to_point in Hp. rewrite new_table_snd, centroid_rows in Hp.
    apply list_elem_of_lookup in Hp as [k Hk]. by apply (Hrow k).
Qed.

(** ** How the recorded number relates to the buildings in between *)

Lemma length_filter_split {A} (P Q : A → Prop)
    `{∀ x, Decision (P x)} `{∀ x, Decision (Q x)} (l : list A) :
  length (filter P l) =
  length (filter (λ x, P x ∧ ¬ Q x) l) + length (filter (λ x, P x ∧ Q x) l).
Proof.
  induction l as [|x l IH]; [done|].
  rewrite !filter_cons. repeat case_decide; simpl; try lia; tauto.
Qed.

(** The recorded number is the number of other buildings crossed plus the
    number of the pair's own footprints the line intersects. *)
Lemma n_crossed_split (c : table point) (b : table polygon) i j :
  n_crossed c b i j =
  n_between c b i j
  + length (filter (λ r, intersects (line_of c i j) r.2 = true ∧ (r.1 = i ∨ r.1 = j)) b).
Proof.
  unfold n_crossed, n_between.
  rewrite (length_filter_split _ (λ r : nat * polygon, r.1 = i ∨ r.1 = j)).
  f_equal. f_equal. apply list_filter_iff. intros r. tauto.
Qed.

Lemma filter_key_absent {A} (t : table A) i :
  i ∉ t.*1 → filter (λ r, r.1 = i) t = [].
Proof.
  induction t as [|[a y] t IH]; intros Hi; [done|].
  rewrite fmap_cons, not_elem_of_cons in Hi. destruct Hi as [Hne Hi].
  rewrite filter_cons_False; [by apply IH|]. simpl. intros ->. by apply Hne.
Qed.

Lemma filter_key_unique {A} (t : table A) i x :
  NoDup t.*1 → (i, x) ∈ t → filter (λ r, r.1 = i) t = [(i, x)].
Proof.
  induction t as [|[a y] t IH]; intros Hnd Hin.
  { by apply elem_of_nil in Hin. }
  rewrite fmap_cons in Hnd. apply NoDup_cons in Hnd as [Ha Hnd].
  apply elem_of_cons in Hin as [[= <- <-]|Hin].
  - rewrite filter_cons_True; [|done]. by rewrite filter_key_absent.
  - rewrite filter_cons_False; [by apply IH|]. simpl. intros ->.
    apply Ha. apply list_elem_of_fmap. by exists (i, x).
Qed.

(** For a pair (i, i) the selection holds the single centroid of [i]: the
    polyline handed to the INTERSECT query has one vertex. *)
Lemma line_of_diagonal (fs : list feature) k f :
  filter clause_filtering fs !! k = Some f →
  line_of (feature_to_point (buildings_only fs)) (S k) (S k) = [centroid (SHAPE f)].
Proof.
  intros Hk. unfold line_of.
  rewrite (list_filter_iff _ (λ r, r.1 = S k)).
  2:{ intros r. unfold clause_centroids. tauto. }
  rewrite (filter_key_unique _ (S k) (centroid (SHAPE f))); [done|..].
  - unfold feature_to_point. apply new_table_NoDup.
  - unfold feature_to_point. apply list_elem_of_lookup. exists k.
    apply new_table_lookup. rewrite centroid_rows, list_lookup_fmap. by rewrite Hk.
Qed.

(** The diagonal entry is computed like any other: it is the number of
    footprints the INTERSECT query selects for the one-vertex polyline at the
    centroid of [i]. *)
Lemma diagonal_entry (fs : list feature) (ws : workspace) cid bid :
  check_object_id (centroids_fields ws) = Ok cid →
  field_type (centroids_fields ws) cid = Some "OID"%string →
  check_object_id (buildings_fields ws) = Ok bid →
  ∃ out, main fs ws = Ok out ∧
    ∀ k f, filter clause_filtering fs !! k = Some f →
      entry (BuildingsIntersections out) (S k) (S k) =
        Some (length (filter (λ r, intersects [centroid (SHAPE f)] r.2 = true)
                             (buildings_only fs))).
Proof.
  intros Hc Hoid Hb. eexists. split; [by eapply main_spec|]. simpl.
  intros k f Hk. assert (Hlt : k < length (filter clause_filtering fs)).
  { by apply lookup_lt_Some in Hk. }
  rewrite (matrix_entry (n_crossed _ _)); [|lia..].
  unfold n_crossed. by rewrite (line_of_diagonal fs k f Hk).
Qed.

(** Where a one-vertex polyline selects nothing the diagonal is zero. *)
Lemma diagonal_zero_if_single_vertex_selects_nothing
    (fs : list feature) (ws : workspace) cid bid :
  (∀ (p : point) (g : polygon), intersects [p] g = false) →
  check_object_id (centroids_fields ws) = Ok cid →
  field_type (centroids_fields ws) cid = Some "OID"%string →
  check_object_id (buildings_fields ws) = Ok bid →
  ∃ out, main fs ws = Ok out ∧
    ∀ i, 1 ≤ i ≤ length (filter clause_filtering fs) →
      entry (BuildingsIntersections out) i i = Some 0.
Proof.
  intros Hempty Hc Hoid Hb.
  destruct (diagonal_entry fs ws cid bid Hc Hoid Hb) as (out & Hmain & Hdiag).
  exists out. split; [done|]. intros i Hi. destruct i as [|k]; [lia|].
  destruct (lookup_lt_is_Some_2 (filter clause_filtering fs) k) as [f Hf]; [lia|].
  rewrite (Hdiag k f Hf). do 2 f_equal. clear Hdiag Hmain.
  induction (buildings_only fs) as [|r t IH]; [done|].
  rewrite filter_cons_False; [exact IH|]. by rewrite Hempty.
Qed.

End Proofs.

(** ** [check_object_id] *)

Local Open Scope string_scope.

Lemma field_names_has_field layer_in s :
  s ∈ field_names layer_in → has_field layer_in s.
Proof.
  unfold field_names, has_field. intros Hs.
  apply list_elem_of_fmap in Hs as (f & -> & Hf).
  apply list_elem_of_filter in Hf as [_ Hf].
  apply list_elem_of_fmap. by exists f.
Qed.

(** C9. [check_object_id] returns a name only if the layer has a field of
    that name, and the name is 'OID', else 'OBJECTID', else 'ObjectID', the
    first of them found among the names of the non-geometry fields; on a
    layer with no field of any of the three names it raises
    [UnboundLocalError] for [points_id]. *)
Theorem check_object_id_spec (layer_in : list field) :
  (∀ id, check_object_id layer_in = Ok id →
     has_field layer_in id ∧
     (id = "OID"
      ∨ (id = "OBJECTID" ∧ ("OID" ∉ field_names layer_in))
      ∨ (id = "ObjectID" ∧ ("OID" ∉ field_names layer_in)
                         ∧ ("OBJECTID" ∉ field_names layer_in))))
  ∧ (¬ has_field layer_in "OID" → ¬ has_field layer_in "OBJECTID" →
     ¬ has_field layer_in "ObjectID" →
     check_object_id layer_in = Raise (UnboundLocalError "points_id")).
Proof.
  unfold check_object_id. split.
  - intros id Hid. repeat case_decide; try done; injection Hid as <-.
    + split; [by apply field_names_has_field|]. by left.
    + split; [by apply field_names_has_field|]. right. by left.
    + split; [by apply field_names_has_field|]. right. by right.
  - intros H1 H2 H3.
    rewrite !decide_False; [done|..]; intros Hin; apply field_names_has_field in Hin; done.
Qed.

(** On the fields of a geodatabase feature class the name returned is
    'OBJECTID'; on those of a shapefile, whose id field is 'FID', the call
    raises. *)
Lemma check_object_id_spec_witness :
  has_field (buildings_fields gdb) "OBJECTID"
  ∧ check_object_id shapefile_fields = Raise (UnboundLocalError "points_id").
Proof.
  split.
  - apply (proj1 (check_object_id_spec (buildings_fields gdb)) "OBJECTID").
    vm_compute. reflexivity.
  - apply (proj2 (check_object_id_spec shapefile_fields));
      apply (bool_decide_eq_false_1 _); vm_compute; reflexivity.
Defined.

Local Close Scope string_scope.

(** ** Runs on the reference geometry *)

(** C1: the script on scenario A.  With the second square between the first
    and the third, one building lies between the pair (1, 3) and none between
    (1, 2) or (2, 3); the script records 3, 2 and 2: each count includes the
    pair's own two footprints, which the line from centroid to centroid
    always intersects.  The counts do not depend on how a one-vertex polyline
    is treated. *)
Theorem scenario_A_counts_the_endpoints (single_vertex_is_point : bool) :
  ∃ out, main (scenario_A single_vertex_is_point) gdb = Ok out
    ∧ entry (BuildingsIntersections out) 1 2 = Some 2
    ∧ entry (BuildingsIntersections out) 2 3 = Some 2
    ∧ entry (BuildingsIntersections out) 1 3 = Some 3
    ∧ n_between (feature_to_point (buildings_only (scenario_A single_vertex_is_point)))
                (buildings_only (scenario_A single_vertex_is_point)) 1 2 = 0
    ∧ n_between (feature_to_point (buildings_only (scenario_A single_vertex_is_point)))
                (buildings_only (scenario_A single_vertex_is_point)) 2 3 = 0
    ∧ n_between (feature_to_point (buildings_only (scenario_A single_vertex_is_point)))
                (buildings_only (scenario_A single_vertex_is_point)) 1 3 = 1.
Proof.
  destruct single_vertex_is_point;
    (eexists; split; [eapply main_spec; vm_compute; reflexivity|]);
    vm_compute; done.
Qed.

(** C4: the script on scenario B.  With n = 2 buildings the entry for the
    pair (1, 2) is 2, above the bound n - 2 = 0. *)
Theorem scenario_B_exceeds_the_bound (single_vertex_is_point : bool) :
  ∃ out, main (scenario_B single_vertex_is_point) gdb = Ok out
    ∧ length (filter clause_filtering (scenario_B single_vertex_is_point)) = 2
    ∧ entry (BuildingsIntersections out) 1 2 = Some 2
    ∧ ¬ (2 ≤ 2 - 2).
Proof.
  destruct single_vertex_is_point;
    (eexists; split; [eapply main_spec; vm_compute; reflexivity|]);
    (split; [vm_compute; reflexivity|]); (split; [vm_compute; reflexivity|]);
    simpl; lia.
Qed.

(** The bound the entries do obey: at most n, the number of buildings. *)
Lemma entries_at_most_n `{G : Geometry} (fs : list feature) (ws : workspace) cid bid :
  check_object_id (centroids_fields ws) = Ok cid →
  field_type (centroids_fields ws) cid = Some "OID"%string →
  check_object_id (buildings_fields ws) = Ok bid →
  ∃ out, main fs ws = Ok out ∧
    ∀ i j, 1 ≤ i ≤ length (filter clause_filtering fs) →
           1 ≤ j ≤ length (filter clause_filtering fs) →
      ∃ k, entry (BuildingsIntersections out) i j = Some k
           ∧ k ≤ length (filter clause_filtering fs).
Proof.
  intros Hc Hoid Hb. eexists. split; [by eapply main_spec|]. simpl.
  intros i j Hi Hj. eexists. split; [by apply (matrix_entry (n_crossed _ _))|].
  rewrite <- length_buildings_only. apply n_crossed_le.
Qed.

(** The diagonal of scenario A under the two readings of a one-vertex
    polyline: zero when it selects nothing, one (the building's own
    footprint) when it acts as the point. *)
Lemma scenario_A_diagonal :
  (∃ out, main (scenario_A false) gdb = Ok out
     ∧ entry (BuildingsIntersections out) 1 1 = Some 0)
  ∧ (∃ out, main (scenario_A true) gdb = Ok out
     ∧ entry (BuildingsIntersections out) 1 1 = Some 1).
Proof.
  split; (eexists; split; [eapply main_spec; vm_compute; reflexivity|]);
    vm_compute; done.
Qed.

(** Symmetry on scenario A, for the pair of the first and third square. *)
Lemma matrix_symmetric_witness :
  ∃ out, main (scenario_A false) gdb = Ok out ∧
    ∃ k, entry (BuildingsIntersections out) 1 3 = Some k
         ∧ entry (BuildingsIntersections out) 3 1 = Some k.
Proof.
  destruct (matrix_symmetric (scenario_A false) gdb) as [Hsym Hreturns].
  destruct (Hreturns "OBJECTID" "OBJECTID")
    as [out Hmain]; [vm_compute; reflexivity..|].
  exists out. split; [exact Hmain|].
  apply (Hsym out Hmain); [vm_compute; lia..|lia].
Defined.

(** The shape of the outputs on scenario A: the second centroid is under key
    2 and row 1 has three entries. *)
Lemma outputs_shape_witness :
  ∃ out, main (scenario_A false) gdb = Ok out
    ∧ BuildingCentroids out !! 2 = Some (11, 1)%Z
    ∧ ∃ row, BuildingsIntersections out !! 1 = Some row ∧ length row = 3.
Proof.
  destruct (outputs_shape (scenario_A false) gdb "OBJECTID" "OBJECTID")
    as (out & Hmain & _ & Hcoord & _ & Hrows); [vm_compute; reflexivity..|].
  exists out. split; [exact Hmain|]. split.
  - apply (Hcoord 1 (yes (G := Grid.grid false) (Grid.square 10 0))). reflexivity.
  - destruct (Hrows 1) as (row & Hrow & Hlen & _); [vm_compute; lia|].
    exists row. split; [exact Hrow|exact Hlen].
Defined.

(** C5: on scenario B, n = 2, the script builds four polylines - for (1, 1),
    (1, 2), (2, 1) and (2, 2), the line of (1, 2) twice - not the single one
    of a pass over the pairs with i < j. *)
Lemma scenario_B_builds_four_polylines :
  ∃ out, main (scenario_B false) gdb = Ok out
    ∧ polylines out = [[(1, 1)]; [(1, 1); (2, 2)]; [(1, 1); (2, 2)]; [(2, 2)]]%Z
    ∧ length (polylines out) ≠ 2 * (2 - 1) / 2.
Proof.
  eexists. split; [eapply main_spec; vm_compute; reflexivity|].
  split; [vm_compute; reflexivity|]. vm_compute. lia.
Qed.

(** On scenario B the loop builds 2 * 2 polylines and row 1 receives the
    two numbers of the pairs (1, 1) and (1, 2). *)
Lemma one_polyline_per_ordered_pair_witness :
  ∃ out, main (scenario_B false) gdb = Ok out
    ∧ length (polylines out) = 4
    ∧ BuildingsIntersections out !! 1 = Some [0; 2].
Proof.
  destruct (one_polyline_per_ordered_pair (scenario_B false) gdb "OBJECTID" "OBJECTID")
    as (out & Hmain & _ & Hlen & Hrows & _); [vm_compute; reflexivity..|].
  exists out. split; [exact Hmain|]. split; [exact Hlen|].
  apply Hrows. vm_compute. lia.
Defined.

(** C6: a footprint with two distinct vertices, tagged as a building, is not
    rejected when the buildings are loaded: it is row 1 of the buildings
    feature class the script builds and runs its INTERSECT queries against. *)
Lemma degenerate_polygon_is_kept :
  Grid.degenerate sliver = true
  ∧ buildings_only (with_sliver false) = [(1, sliver); (2, Grid.square 0 0)].
Proof. split; vm_compute; reflexivity. Qed.

(** The second square of scenario A has id 2, its centroid and its row. *)
Lemma every_tagged_polygon_is_kept_witness :
  ∃ out, main (scenario_A false) gdb = Ok out ∧
    ∃ i, 1 ≤ i ≤ 3
      ∧ (i, Grid.square 10 0) ∈ buildings_only (scenario_A false)
      ∧ BuildingCentroids out !! i = Some (11, 1)%Z
      ∧ ∃ row, BuildingsIntersections out !! i = Some row ∧ length row = 3.
Proof.
  destruct (every_tagged_polygon_is_kept (scenario_A false) gdb "OBJECTID" "OBJECTID")
    as (out & Hmain & Hkept); [vm_compute; reflexivity..|].
  exists out. split; [exact Hmain|].
  apply (Hkept (yes (G := Grid.grid false) (Grid.square 10 0))).
  - apply list_elem_of_further, list_elem_of_here.
  - reflexivity.
Defined.

(** On scenario A with the columns visited in the order 1, 3, 2, row 1 lists
    the counts of (1, 1), (1, 3) and (1, 2) in that order. *)
Lemma counts_independent_of_earlier_pairs_witness :
  ∃ s', analysis_over (feature_to_point (buildings_only (scenario_A false)))
                      (buildings_only (scenario_A false)) [1; 2; 3] [1; 3; 2]
                      (fresh_layers (feature_to_point (buildings_only (scenario_A false)))
                                    (buildings_only (scenario_A false))) = Ok (tt, s')
    ∧ dict_out s' !! 1 = Some [0; 3; 2].
Proof.
  destruct (counts_independent_of_earlier_pairs (scenario_A false) [1; 2; 3] [1; 3; 2]
              (fresh_layers (feature_to_point (buildings_only (scenario_A false)))
                            (buildings_only (scenario_A false))))
    as (s' & Hrun & Hrows).
  { intros i Hi. vm_compute.
    repeat (apply elem_of_cons in Hi as [->|Hi]); [lia..|].
    by apply elem_of_nil in Hi. }
  exists s'. split; [exact Hrun|]. apply Hrows. apply list_elem_of_here.
Defined.

(** The untagged polygons of the mixed scenario change nothing, and the
    second centroid stems from a tagged polygon. *)
Lemma only_buildings_contribute_witness :
  main (scenario_A_mixed true) gdb = main (scenario_A true) gdb
  ∧ ∃ f, f ∈ scenario_A_mixed true ∧ building f = Some "yes"%string
         ∧ (11, 1)%Z = centroid (SHAPE f).
Proof.
  destruct (only_buildings_contribute (scenario_A_mixed true) gdb)
    as (Hsame & _ & _ & Hcoord).
  split; [exact Hsame|].
  eapply (Hcoord _ 2 (11, 1)%Z);
    [eapply main_spec; vm_compute; reflexivity|vm_compute; reflexivity].
Defined.

(** * Further properties of the script *)

(** ** [check_object_id] *)

Local Open Scope string_scope.

Lemma field_names_spec layer_in s :
  s ∈ field_names layer_in ↔ ∃ f, f ∈ layer_in ∧ type f ≠ "Geometry" ∧ name f = s.
Proof.
  unfold field_names. split.
  - intros Hs. apply list_elem_of_fmap in Hs as (f & -> & Hf).
    apply list_elem_of_filter in Hf as [Hty Hf]. by exists f.
  - intros (f & Hf & Hty & <-). apply list_elem_of_fmap. exists f. split; [done|].
    by apply list_elem_of_filter.
Qed.

(** [check_object_id] returns a name exactly when some field that is not of
    type 'Geometry' is called 'OID', 'OBJECTID' or 'ObjectID'; the spelling
    has to match, and a field of another name never helps. *)
Theorem check_object_id_succeeds_iff (layer_in : list field) :
  (∃ id, check_object_id layer_in = Ok id) ↔
  ∃ f, f ∈ layer_in ∧ type f ≠ "Geometry"
       ∧ (name f = "OID" ∨ name f = "OBJECTID" ∨ name f = "ObjectID").
Proof.
  unfold check_object_id. split.
  - intros [id Hid].
    repeat case_decide; try done;
      match goal with H : _ ∈ field_names _ |- _ =>
        apply field_names_spec in H as (f & Hf & Hty & Hname) end;
      exists f; tauto.
  - intros (f & Hf & Hty & Hname).
    repeat case_decide; eauto.
    destruct Hname as [Hn|[Hn|Hn]];
      match goal with H : ?s ∉ field_names _ |- _ =>
        match s with _ => (destruct H; apply field_names_spec; by exists f) end end.
Qed.

(** Fields of type 'Geometry' play no part: inserting one anywhere, whatever
    its name, does not change the result. *)
Theorem check_object_id_ignores_geometry (l1 l2 : list field) (f : field) :
  type f = "Geometry" →
  check_object_id (l1 ++ f :: l2) = check_object_id (l1 ++ l2).
Proof.
  intros Hty. unfold check_object_id.
  assert (Hnames : field_names (l1 ++ f :: l2) = field_names (l1 ++ l2)).
  { unfold field_names. rewrite !filter_app, filter_cons_False; [done|]. by intros []. }
  by rewrite Hnames.
Qed.

(** A shape field called 'OID' does not hide the real 'OBJECTID'. *)
Lemma check_object_id_ignores_geometry_witness :
  check_object_id [Field "OID" "Geometry"; Field "OBJECTID" "OID"] =
  check_object_id [Field "OBJECTID" "OID"].
Proof.
  apply (check_object_id_ignores_geometry [] [Field "OBJECTID" "OID"]
           (Field "OID" "Geometry")).
  reflexivity.
Defined.

(** The answer depends on which fields the layer has, not on their order. *)
Theorem check_object_id_permutation (l l' : list field) :
  l ≡ₚ l' → check_object_id l = check_object_id l'.
Proof.
  intros Hperm.
  assert (Hin : ∀ s, s ∈ field_names l ↔ s ∈ field_names l').
  { intros s. rewrite !field_names_spec.
    split; intros (f & Hf & H); exists f; (split; [|done]).
    - by rewrite <- Hperm.
    - by rewrite Hperm. }
  unfold check_object_id.
  rewrite (decide_ext _ _ _ _ (Hin "ObjectID")).
  rewrite (decide_ext _ _ _ _ (Hin "OBJECTID")).
  by rewrite (decide_ext _ _ _ _ (Hin "OID")).
Qed.

Lemma check_object_id_permutation_witness :
  check_object_id [Field "ObjectID" "OID"; Field "OBJECTID" "Integer"] =
  check_object_id [Field "OBJECTID" "Integer"; Field "ObjectID" "OID"].
Proof.
  apply check_object_id_permutation. apply perm_swap.
Defined.

Local Close Scope string_scope.

Section MoreProofs.
Context `{G : Geometry}.

(** ** When [main] raises *)

Lemma check_object_id_raises (layer_in : list field) e :
  check_object_id layer_in = Raise e → e = UnboundLocalError "points_id".
Proof.
  unfold check_object_id. repeat case_decide; try done. by intros [= <-].
Qed.

(** ** No building at all *)

Lemma filter_none {A} (P : A → Prop) `{∀ x, Decision (P x)} (l : list A) :
  (∀ x, x ∈ l → ¬ P x) → filter P l = [].
Proof.
  induction l as [|x l IH]; intros Hno; [done|].
  rewrite filter_cons_False; [|apply Hno; by left].
  apply IH. intros y Hy. apply Hno. by right.
Qed.

(** When no input polygon is tagged [building = 'yes'] the loops do not run:
    both dictionaries are empty and no polyline is built. *)
Theorem no_buildings_no_output (fs : list feature) (ws : workspace) cid bid :
  check_object_id (centroids_fields ws) = Ok cid →
  check_object_id (buildings_fields ws) = Ok bid →
  (∀ f, f ∈ fs → building f ≠ Some "yes"%string) →
  main fs ws = Ok (Outputs ∅ ∅ []).
Proof.
  intros Hc Hb Hno. unfold main. rewrite Hc, Hb.
  unfold buildings_only, keyed_by. rewrite (filter_none clause_filtering fs Hno).
  by case_decide.
Qed.

(** ** The recorded number, the buildings in between and the pair's own *)

(** Every entry is the number of other buildings the line intersects plus
    the number of the pair's own footprints it intersects. *)
Theorem recorded_count_is_between_plus_own (fs : list feature) (ws : workspace) cid bid :
  check_object_id (centroids_fields ws) = Ok cid →
  field_type (centroids_fields ws) cid = Some "OID"%string →
  check_object_id (buildings_fields ws) = Ok bid →
  let b := buildings_only fs in
  let c := feature_to_point b in
  ∃ out, main fs ws = Ok out ∧
    ∀ i j, 1 ≤ i ≤ length (filter clause_filtering fs) →
           1 ≤ j ≤ length (filter clause_filtering fs) →
      entry (BuildingsIntersections out) i j =
        Some (n_between c b i j
              + length (filter (λ r, intersects (line_of c i j) r.2 = true
                                     ∧ (r.1 = i ∨ r.1 = j)) b)).
Proof.
  intros Hc Hoid Hb b c. eexists. split; [by eapply main_spec|]. simpl.
  intros i j Hi Hj. rewrite (matrix_entry (n_crossed _ _)); [|done..].
  fold b. fold c. by rewrite n_crossed_split.
Qed.

Lemma filter_key_or_absent {A} (t : table A) i j :
  i ∉ t.*1 → filter (λ r, r.1 = i ∨ r.1 = j) t = filter (λ r, r.1 = j) t.
Proof.
  induction t as [|[a y] t IH]; intros Hi; [done|].
  rewrite fmap_cons, not_elem_of_cons in Hi. destruct Hi as [Hne Hi].
  destruct (decide (a = j)) as [->|Hj].
  - rewrite (filter_cons_True (λ r, r.1 = i ∨ r.1 = j)); [|by right].
    rewrite (filter_cons_True (λ r, r.1 = j)); [|done]. by rewrite (IH Hi).
  - rewrite (filter_cons_False (λ r, r.1 = i ∨ r.1 = j)).
    2:{ simpl. intros [Ha|Ha]; [by apply Hne|by apply Hj]. }
    rewrite (filter_cons_False (λ r, r.1 = j)); [|done]. by apply IH.
Qed.

Lemma filter_two_keys_from {A} (rows : list A) :
  ∀ s k1 k2 x y,
    rows !! k1 = Some x → rows !! k2 = Some y → k1 < k2 →
    filter (λ r, r.1 = s + k1 ∨ r.1 = s + k2) (zip (seq s (length rows)) rows) =
      [(s + k1, x); (s + k2, y)].
Proof.
  induction rows as [|z rows IH]; intros s k1 k2 x y Hx Hy Hlt; [done|].
  destruct k2 as [|k2']; [lia|]. simpl in Hy.
  cbn [length seq zip zip_with]. destruct k1 as [|k1'].
  - injection Hx as ->. rewrite filter_cons_True; [|left; simpl; lia].
    rewrite Nat.add_0_r. f_equal.
    rewrite filter_key_or_absent.
    2:{ rewrite fst_zip; [|by rewrite length_seq]. rewrite elem_of_seq. lia. }
    apply filter_key_unique.
    + rewrite fst_zip; [|by rewrite length_seq]. apply NoDup_seq.
    + apply list_elem_of_lookup. exists k2'. apply lookup_zip_with_Some.
      exists (s + S k2'), y. split; [done|]. split; [|done].
      apply lookup_seq. split; [lia|]. by apply lookup_lt_Some in Hy.
  - simpl in Hx. rewrite filter_cons_False; [|simpl; lia].
    replace (s + S k1') with (S s + k1') by lia.
    replace (s + S k2') with (S s + k2') by lia.
    apply IH; [done|done|lia].
Qed.

Lemma filter_two_keys {A} (rows : list A) k1 k2 x y :
  rows !! k1 = Some x → rows !! k2 = Some y → k1 < k2 →
  filter (λ r, r.1 = S k1 ∨ r.1 = S k2) (new_table rows) = [(S k1, x); (S k2, y)].
Proof. intros Hx Hy Hlt. exact (filter_two_keys_from rows 1 k1 k2 x y Hx Hy Hlt). Qed.

(** The polyline of a pair of distinct ids has the two centroids as its
    vertices, the one of the lower id first, in whichever order the pair is
    given: the cursor reads the selection in table order. *)
Theorem polyline_runs_from_lower_to_higher_id (fs : list feature) k1 k2 f g :
  filter clause_filtering fs !! k1 = Some f →
  filter clause_filtering fs !! k2 = Some g →
  k1 < k2 →
  let c := feature_to_point (buildings_only fs) in
  line_of c (S k1) (S k2) = [centroid (SHAPE f); centroid (SHAPE g)]
  ∧ line_of c (S k2) (S k1) = [centroid (SHAPE f); centroid (SHAPE g)].
Proof.
  intros Hf Hg Hlt c.
  assert (Hline : line_of c (S k1) (S k2) = [centroid (SHAPE f); centroid (SHAPE g)]).
  { unfold line_of, c, feature_to_point. rewrite centroid_rows.
    rewrite (list_filter_iff _ (λ r, r.1 = S k1 ∨ r.1 = S k2)).
    2:{ intros r. unfold clause_centroids. tauto. }
    rewrite (filter_two_keys _ k1 k2 (centroid (SHAPE f)) (centroid (SHAPE g)));
      [done| | |done]; rewrite list_lookup_fmap; [by rewrite Hf|by rewrite Hg]. }
  split; [done|]. by rewrite line_of_comm.
Qed.

Lemma own_rows_counted {A} (Q : nat * A → Prop) `{∀ r, Decision (Q r)}
    (rows : list A) k1 k2 x y :
  rows !! k1 = Some x → rows !! k2 = Some y → k1 ≠ k2 →
  Q (S k1, x) → Q (S k2, y) →
  length (filter (λ r, Q r ∧ (r.1 = S k1 ∨ r.1 = S k2)) (new_table rows)) = 2.
Proof.
  intros Hx Hy Hne Qx Qy. rewrite <- (list_filter_filter Q).
  destruct (decide (k1 < k2)) as [Hlt|Hge].
  - rewrite (filter_two_keys rows k1 k2 x y); [|done..].
    rewrite filter_cons_True; [|done]. by rewrite filter_cons_True.
  - rewrite (list_filter_iff (λ r : nat * A, r.1 = S k1 ∨ r.1 = S k2)
                             (λ r, r.1 = S k2 ∨ r.1 = S k1)); [|intros r; tauto].
    rewrite (filter_two_keys rows k2 k1 y x); [|done|done|lia].
    rewrite filter_cons_True; [|done]. by rewrite filter_cons_True.
Qed.

(** For two distinct buildings whose footprints both meet the line between
    their centroids - as they do whenever a centroid lies on its footprint -
    the recorded number is the number of buildings in between plus two. *)
Theorem own_footprints_add_two (fs : list feature) (ws : workspace) cid bid k1 k2 f g :
  check_object_id (centroids_fields ws) = Ok cid →
  field_type (centroids_fields ws) cid = Some "OID"%string →
  check_object_id (buildings_fields ws) = Ok bid →
  let b := buildings_only fs in
  let c := feature_to_point b in
  filter clause_filtering fs !! k1 = Some f →
  filter clause_filtering fs !! k2 = Some g →
  k1 ≠ k2 →
  intersects (line_of c (S k1) (S k2)) (SHAPE f) = true →
  intersects (line_of c (S k1) (S k2)) (SHAPE g) = true →
  ∃ out, main fs ws = Ok out ∧
    entry (BuildingsIntersections out) (S k1) (S k2) =
      Some (n_between c b (S k1) (S k2) + 2).
Proof.
  intros Hc Hoid Hb b c Hf Hg Hne Hif Hig. eexists. split; [by eapply main_spec|]. simpl.
  assert (Hlt1 : k1 < length (filter clause_filtering fs)) by (by apply lookup_lt_Some in Hf).
  assert (Hlt2 : k2 < length (filter clause_filtering fs)) by (by apply lookup_lt_Some in Hg).
  rewrite (matrix_entry (n_crossed _ _)); [|lia..].
  fold b. fold c. rewrite n_crossed_split. do 2 f_equal.
  unfold b, buildings_only.
  apply (own_rows_counted
           (λ r : nat * polygon, intersects (line_of c (S k1) (S k2)) r.2 = true)
           _ k1 k2 (SHAPE f) (SHAPE g)); [..|done|done|done].
  - rewrite list_lookup_fmap. by rewrite Hf.
  - rewrite list_lookup_fmap. by rewrite Hg.
Qed.

(** For a pair (i, i) the polyline has the centroid of [i] as its only
    vertex, and the diagonal entry is the number of footprints the INTERSECT
    query selects for that one-vertex polyline: the script has no separate
    case for the diagonal. *)
Theorem diagonal_is_the_single_vertex_query (fs : list feature) (ws : workspace) cid bid :
  check_object_id (centroids_fields ws) = Ok cid →
  field_type (centroids_fields ws) cid = Some "OID"%string →
  check_object_id (buildings_fields ws) = Ok bid →
  ∃ out, main fs ws = Ok out ∧
    ∀ k f, filter clause_filtering fs !! k = Some f →
      line_of (feature_to_point (buildings_only fs)) (S k) (S k) = [centroid (SHAPE f)]
      ∧ entry (BuildingsIntersections out) (S k) (S k) =
          Some (length (filter (λ r, intersects [centroid (SHAPE f)] r.2 = true)
                               (buildings_only fs))).
Proof.
  intros Hc Hoid Hb.
  destruct (diagonal_entry fs ws cid bid Hc Hoid Hb) as (out & Hmain & Hdiag).
  exists out. split; [done|]. intros k f Hk. split.
  - by apply line_of_diagonal.
  - by apply Hdiag.
Qed.

(** ** The body of the inner loop *)

(** The two ways the loop body can fail: with no centroid of id [i] or [j]
    the selection is empty and [line] is unbound; with a centroid selected but
    no row [dict_out[i]] the append raises [KeyError]. *)
Theorem pair_step_errors (c : table point) (b : table polygon) i j (s : state) :
  ((∀ r, r ∈ c → r.1 ≠ i ∧ r.1 ≠ j) →
     pair_step c b i j s = Raise (UnboundLocalError "line"))
  ∧ (line_of c i j ≠ [] → dict_out s !! i = None →
     pair_step c b i j s = Raise (KeyError i)).
Proof.
  split.
  - intros Hno. unfold pair_step, bind, select_centroids, create_line. simpl.
    rewrite (filter_none (clause_centroids i j) c); [done|].
    intros r Hr [Hi|Hj]; by destruct (Hno r Hr).
  - intros Hline Hrow. unfold pair_step, bind, select_centroids, create_line. simpl.
    fold (line_of c i j). destruct (line_of c i j) as [|p line]; [done|].
    simpl. unfold append_count. simpl. by rewrite Hrow.
Qed.

(** One run of the loop body appends exactly one number, the count of the
    pair, to row [i], leaves every other row of [dict_out] as it was, and
    adds the pair's polyline to those built so far. *)
Theorem pair_step_touches_only_row_i (c : table point) (b : table polygon)
    i j (s : state) row :
  dict_out s !! i = Some row → line_of c i j ≠ [] →
  ∃ s', pair_step c b i j s = Ok (tt, s')
    ∧ dict_out s' !! i = Some (row ++ [n_crossed c b i j])
    ∧ (∀ k, k ≠ i → dict_out s' !! k = dict_out s !! k)
    ∧ lines s' = lines s ++ [line_of c i j].
Proof.
  intros Hrow Hline. eexists. split; [by apply pair_step_spec|]. simpl.
  split_and!; [apply lookup_insert_eq| |done].
  intros k Hk. by apply lookup_insert_ne.
Qed.

End MoreProofs.

Section Growth.
Context `{G : Geometry}.

(** ** The coordinate dictionary of any table *)

Lemma table_key_unique {A} (t : table A) k x y :
  NoDup t.*1 → (k, x) ∈ t → (k, y) ∈ t → x = y.
Proof.
  intros Hnd Hx Hy.
  assert (Hin : (k, y) ∈ filter (λ r, r.1 = k) t) by (by apply list_elem_of_filter).
  rewrite (filter_key_unique t k x Hnd Hx) in Hin.
  apply list_elem_of_singleton in Hin. congruence.
Qed.

(** Over a table with distinct ids - consecutive or not - the loop of lines
    179-181 leaves [geo_coord] with exactly the rows of the table: an id is
    mapped to a point if and only if the table has that row. *)
Theorem coordinates_of_distinct_ids (t : table point) :
  NoDup t.*1 → ∀ k p, coordinates t !! k = Some p ↔ (k, p) ∈ t.
Proof.
  intros Hnd k p. unfold coordinates. split.
  - intros Hk. destruct (decide (k ∈ t.*1)) as [Hin|Hnin].
    + apply list_elem_of_fmap in Hin as ([k' p'] & -> & Hin). simpl in Hk.
      rewrite (foldl_insert_in fst snd t ∅ (k', p')) in Hk; [by injection Hk as <-|done|].
      intros [k2 p2] H2 Hkey. simpl in Hkey. subst k2. simpl.
      by apply (table_key_unique t k').
    + rewrite (foldl_insert_notin fst snd) in Hk; [done|].
      intros r Hr Hkey. apply Hnin. apply list_elem_of_fmap. by exists r.
  - intros Hin. apply (foldl_insert_in fst snd t ∅ (k, p)); [done|].
    intros [k2 p2] H2 Hkey. simpl in Hkey. subst k2. simpl.
    by apply (table_key_unique t k).
Qed.

(** ** One more building at the end of the input *)

Lemma new_table_snoc {A} (rows : list A) x :
  new_table (rows ++ [x]) = new_table rows ++ [(S (length rows), x)].
Proof.
  unfold new_table. rewrite length_app. simpl length.
  rewrite seq_app.
  rewrite (zip_with_app pair (seq 1 (length rows)) _ rows [x]); [done|].
  by rewrite length_seq.
Qed.

Lemma buildings_only_snoc (fs : list feature) f :
  building f = Some "yes"%string →
  buildings_only (fs ++ [f]) =
    buildings_only fs ++ [(S (length (filter clause_filtering fs)), SHAPE f)].
Proof.
  intros Hyes. unfold buildings_only.
  rewrite filter_app, filter_cons_True, filter_nil; [|done].
  rewrite fmap_app. change (SHAPE <$> [f]) with [SHAPE f].
  by rewrite new_table_snoc, length_fmap.
Qed.

Lemma feature_to_point_snoc (b : table polygon) i g :
  feature_to_point (b ++ [(i, g)]) = feature_to_point b ++ [(S (length b), centroid g)].
Proof.
  unfold feature_to_point. rewrite fmap_app.
  change ((λ r : nat * polygon, centroid r.2) <$> [(i, g)]) with [centroid g].
  by rewrite new_table_snoc, length_fmap.
Qed.

Lemma line_of_snoc (c : table point) m p i j :
  i ≠ m → j ≠ m → line_of (c ++ [(m, p)]) i j = line_of c i j.
Proof.
  intros Hi Hj. unfold line_of. rewrite filter_app, filter_cons_False, filter_nil.
  - by rewrite app_nil_r.
  - unfold clause_centroids. simpl. intros [?|?]; congruence.
Qed.

(** Appending one more tagged polygon to the input keeps the ids and the
    centroids of the buildings already there, gives the new building the
    next id, and raises the number recorded for a pair of old buildings by
    one if the pair's line intersects the new footprint and leaves it
    unchanged otherwise. *)
Theorem appending_a_building (fs : list feature) (f : feature) (ws : workspace) cid bid :
  check_object_id (centroids_fields ws) = Ok cid →
  field_type (centroids_fields ws) cid = Some "OID"%string →
  check_object_id (buildings_fields ws) = Ok bid →
  building f = Some "yes"%string →
  let c := feature_to_point (buildings_only fs) in
  let n := length (filter clause_filtering fs) in
  ∃ out out',
    main fs ws = Ok out ∧ main (fs ++ [f]) ws = Ok out'
    ∧ (∀ i, 1 ≤ i ≤ n → BuildingCentroids out' !! i = BuildingCentroids out !! i)
    ∧ BuildingCentroids out' !! S n = Some (centroid (SHAPE f))
    ∧ (∀ i j, 1 ≤ i ≤ n → 1 ≤ j ≤ n →
         ∃ k, entry (BuildingsIntersections out) i j = Some k
           ∧ entry (BuildingsIntersections out') i j =
               Some (k + (if intersects (line_of c i j) (SHAPE f) then 1 else 0))).
Proof.
  intros Hc Hoid Hb Hyes c n.
  assert (Hfilter : filter clause_filtering (fs ++ [f]) = filter clause_filtering fs ++ [f]).
  { by rewrite filter_app, filter_cons_True, filter_nil. }
  eexists. eexists.
  split; [by eapply main_spec|]. split; [by eapply main_spec|]. simpl.
  rewrite Hfilter, length_app. simpl length. fold n. split_and!.
  - intros i Hi. rewrite !coordinates_main, Hfilter.
    destruct i as [|k]; [done|]. rewrite lookup_app_l; [done|]. fold n. lia.
  - rewrite coordinates_main, Hfilter.
    rewrite lookup_app_r; [|done]. fold n. by rewrite Nat.sub_diag.
  - intros i j Hi Hj. eexists. split; [by apply (matrix_entry (n_crossed _ _))|].
    rewrite (matrix_entry (n_crossed _ _)); [|lia..]. f_equal.
    rewrite (buildings_only_snoc fs f Hyes), feature_to_point_snoc. fold c. fold n.
    unfold n_crossed. rewrite line_of_snoc.
    2,3: rewrite length_buildings_only; fold n; lia.
    rewrite filter_app, length_app. f_equal.
    destruct (intersects (line_of c i j) (SHAPE f)) eqn:E.
    + by rewrite filter_cons_True.
    + rewrite filter_cons_False; [done|]. simpl. by rewrite E.
Qed.

End Growth.

(** ** Runs for the further properties *)

(** With only untagged polygons the outputs are empty. *)
Lemma no_buildings_no_output_witness :
  main (untagged_only false) gdb = Ok (Outputs ∅ ∅ []).
Proof.
  apply (no_buildings_no_output (untagged_only false) gdb "OBJECTID" "OBJECTID");
    [vm_compute; reflexivity..|].
  intros f Hf.
  repeat (apply elem_of_cons in Hf as [->|Hf]); [done..|by apply elem_of_nil in Hf].
Defined.

(** On scenario B the entry of the pair is at most 2. *)
Lemma entries_at_most_n_witness :
  ∃ out, main (scenario_B false) gdb = Ok out ∧
    ∃ k, entry (BuildingsIntersections out) 1 2 = Some k ∧ k ≤ 2.
Proof.
  destruct (entries_at_most_n (scenario_B false) gdb "OBJECTID" "OBJECTID")
    as (out & Hmain & Hle); [vm_compute; reflexivity..|].
  exists out. split; [exact Hmain|]. apply Hle; vm_compute; lia.
Defined.

(** On scenario A the entry of the outer pair is one building in between
    plus the pair's own two. *)
Lemma recorded_count_is_between_plus_own_witness :
  ∃ out, main (scenario_A false) gdb = Ok out
    ∧ entry (BuildingsIntersections out) 1 3 = Some (1 + 2).
Proof.
  destruct (recorded_count_is_between_plus_own (scenario_A false) gdb "OBJECTID" "OBJECTID")
    as (out & Hmain & Hsplit); [vm_compute; reflexivity..|].
  exists out. split; [exact Hmain|]. apply Hsplit; vm_compute; lia.
Defined.

(** The polyline of the pair (3, 1) of scenario A starts at the centroid of
    the first square. *)
Lemma polyline_runs_from_lower_to_higher_id_witness :
  line_of (feature_to_point (buildings_only (scenario_A false))) 3 1
  = [(1, 1); (21, 1)]%Z.
Proof.
  destruct (polyline_runs_from_lower_to_higher_id (scenario_A false) 0 2
              (yes (G := Grid.grid false) (Grid.square 0 0))
              (yes (G := Grid.grid false) (Grid.square 20 0)))
    as [_ Hline]; [reflexivity|reflexivity|lia|exact Hline].
Defined.

Lemma own_footprints_add_two_witness :
  ∃ out, main (scenario_A false) gdb = Ok out
    ∧ entry (BuildingsIntersections out) 1 3 = Some (1 + 2).
Proof.
  destruct (own_footprints_add_two (scenario_A false) gdb "OBJECTID" "OBJECTID" 0 2
              (yes (G := Grid.grid false) (Grid.square 0 0))
              (yes (G := Grid.grid false) (Grid.square 20 0)))
    as (out & Hmain & Hentry);
    [vm_compute; reflexivity|vm_compute; reflexivity|vm_compute; reflexivity
    |reflexivity|reflexivity|lia|vm_compute; reflexivity|vm_compute; reflexivity|].
  exists out. split; [exact Hmain|exact Hentry].
Defined.

(** Where a one-vertex polyline acts as its point, the diagonal entry of the
    first square of scenario A is 1: its own footprint. *)
Lemma diagonal_is_the_single_vertex_query_witness :
  ∃ out, main (scenario_A true) gdb = Ok out
    ∧ entry (BuildingsIntersections out) 1 1 = Some 1.
Proof.
  destruct (diagonal_is_the_single_vertex_query (scenario_A true) gdb "OBJECTID" "OBJECTID")
    as (out & Hmain & Hdiag); [vm_compute; reflexivity..|].
  exists out. split; [exact Hmain|].
  exact (proj2 (Hdiag 0 (yes (G := Grid.grid true) (Grid.square 0 0)) eq_refl)).
Defined.

(** Where a one-vertex polyline selects nothing, the diagonal is zero. *)
Lemma diagonal_zero_if_single_vertex_selects_nothing_witness :
  ∃ out, main (scenario_A false) gdb = Ok out
    ∧ entry (BuildingsIntersections out) 2 2 = Some 0.
Proof.
  destruct (diagonal_zero_if_single_vertex_selects_nothing
              (scenario_A false) gdb "OBJECTID" "OBJECTID")
    as (out & Hmain & Hdiag);
    [intros p g; reflexivity|vm_compute; reflexivity..|].
  exists out. split; [exact Hmain|]. apply Hdiag. vm_compute. lia.
Defined.

(** With no centroid at all [line] is unbound; on a fresh [dict_out] the
    append finds no row. *)
Lemma pair_step_errors_witness :
  pair_step (G := Grid.grid false) [] [] 1 1 (fresh_layers [] [])
    = Raise (UnboundLocalError "line")
  ∧ pair_step (feature_to_point (buildings_only (scenario_A false)))
              (buildings_only (scenario_A false)) 1 2
              (fresh_layers (feature_to_point (buildings_only (scenario_A false)))
                            (buildings_only (scenario_A false)))
    = Raise (KeyError 1).
Proof.
  split.
  - apply (proj1 (pair_step_errors (G := Grid.grid false) [] [] 1 1 (fresh_layers [] []))).
    intros r Hr. by apply elem_of_nil in Hr.
  - apply (proj2 (pair_step_errors
                    (feature_to_point (buildings_only (scenario_A false)))
                    (buildings_only (scenario_A false)) 1 2
                    (fresh_layers (feature_to_point (buildings_only (scenario_A false)))
                                  (buildings_only (scenario_A false))))).
    + vm_compute. discriminate.
    + reflexivity.
Defined.

(** Appending the count of the pair (1, 3) of scenario A to a row that
    holds two numbers already. *)
Lemma pair_step_touches_only_row_i_witness :
  ∃ s', pair_step (feature_to_point (buildings_only (scenario_A false)))
                  (buildings_only (scenario_A false)) 1 3
                  (State (feature_to_point (buildings_only (scenario_A false)))
                         (buildings_only (scenario_A false)) [] {[1 := [0; 2]]})
          = Ok (tt, s')
    ∧ dict_out s' !! 1 = Some [0; 2; 3].
Proof.
  destruct (pair_step_touches_only_row_i
              (feature_to_point (buildings_only (scenario_A false)))
              (buildings_only (scenario_A false)) 1 3
              (State (feature_to_point (buildings_only (scenario_A false)))
                     (buildings_only (scenario_A false)) [] {[1 := [0; 2]]})
              [0; 2])
    as (s' & Hrun & Hrow & _); [reflexivity|vm_compute; discriminate|].
  exists s'. split; [exact Hrun|exact Hrow].
Defined.

(** A table whose ids are 4 and 9. *)
Lemma coordinates_of_distinct_ids_witness :
  coordinates (G := Grid.grid false) [(4, (0, 0)%Z); (9, (5, 5)%Z)] !! 9 = Some (5, 5)%Z.
Proof.
  assert (Hnd : NoDup [4; 9]).
  { apply NoDup_cons. split; [|apply NoDup_singleton].
    intros Hin. apply list_elem_of_singleton in Hin. discriminate Hin. }
  apply (proj2 (coordinates_of_distinct_ids (G := Grid.grid false)
                  [(4, (0, 0)%Z); (9, (5, 5)%Z)] Hnd 9 (5, 5)%Z)).
  apply list_elem_of_further, list_elem_of_here.
Defined.

(** Appending a square between two squares raises their count from 2 to 3
    and leaves their ids as they were. *)
Lemma appending_a_building_witness :
  ∃ out out',
    main [yes (G := Grid.grid false) (Grid.square 0 0);
          yes (G := Grid.grid false) (Grid.square 20 0)] gdb = Ok out
    ∧ main ([yes (G := Grid.grid false) (Grid.square 0 0);
             yes (G := Grid.grid false) (Grid.square 20 0)]
            ++ [yes (G := Grid.grid false) (Grid.square 10 0)]) gdb = Ok out'
    ∧ ∃ k, entry (BuildingsIntersections out) 1 2 = Some k
        ∧ entry (BuildingsIntersections out') 1 2 = Some (k + 1).
Proof.
  destruct (appending_a_building
              [yes (G := Grid.grid false) (Grid.square 0 0);
               yes (G := Grid.grid false) (Grid.square 20 0)]
              (yes (G := Grid.grid false) (Grid.square 10 0))
              gdb "OBJECTID" "OBJECTID")
    as (out & out' & Hmain & Hmain' & _ & _ & Hentries);
    [vm_compute; reflexivity|vm_compute; reflexivity|vm_compute; reflexivity
    |reflexivity|].
  exists out, out'. split; [exact Hmain|]. split; [exact Hmain'|].
  destruct (Hentries 1 2) as (k & Hk & Hk'); [vm_compute; lia..|].
  exists k. split; [exact Hk|exact Hk'].
Defined.

(** * The id field, and what the matrix depends on *)

Section IdField.
Context `{G : Geometry}.

(** ** An id field that is not the object id *)

Lemma analysis_over_first_unbound (c : table point) (b : table polygon)
    i rows j cols (s : state) :
  line_of c i j = [] →
  analysis_over c b (i :: rows) (j :: cols) s = Raise (UnboundLocalError "line").
Proof.
  intros Hline. unfold analysis_over.
  set (body := λ i, bind (new_row i) (λ _, for_each (j :: cols) (λ j, pair_step c b i j))).
  assert (Hstep : for_each (i :: rows) body s =
            match pair_step c b i j (State (layer_centroids s) (layer_polygons s)
                                           (lines s) (<[i := []]> (dict_out s))) with
            | Ok (_, s1) =>
                match for_each cols (λ j, pair_step c b i j) s1 with
                | Ok (_, s2) => for_each rows body s2
                | Raise e => Raise e
                end
            | Raise e => Raise e
            end).
  { cbn [for_each]. unfold body at 1. unfold bind, new_row. cbn [for_each].
    unfold bind. by destruct (pair_step c b i j _) as [[[] s1]|e]. }
  rewrite Hstep. by rewrite pair_step_unbound.
Qed.

(** When the field [check_object_id] names for the centroids is not the
    object id but an integer attribute of the same name, and no building
    holds the number 1 in it, the first where-clause selects no centroid and
    [main] stops in [create_line] with [line] unbound, although both id
    fields were found. *)
Theorem id_attribute_without_1_leaves_line_unbound
    (fs : list feature) (ws : workspace) cid bid :
  check_object_id (centroids_fields ws) = Ok cid →
  check_object_id (buildings_fields ws) = Ok bid →
  field_type (centroids_fields ws) cid = Some "Integer"%string →
  filter clause_filtering fs ≠ [] →
  (∀ f, f ∈ fs → building f = Some "yes"%string → attribute f cid ≠ 1) →
  main fs ws = Raise (UnboundLocalError "line").
Proof.
  intros Hc Hb Hoid Hsome Hno. unfold main. rewrite Hc, Hb.
  rewrite length_feature_to_point, length_buildings_only.
  unfold analysis, range1, keyed_by. rewrite decide_False; [|by rewrite Hoid].
  destruct (filter clause_filtering fs) as [|f0 tagged] eqn:Htagged; [done|].
  cbn [length seq]. rewrite analysis_over_first_unbound; [done|].
  unfold line_of. rewrite filter_none; [done|].
  intros [k p] Hr Hclause. apply elem_of_zip_l in Hr.
  apply list_elem_of_fmap in Hr as (f & Hk & Hf).
  assert (Hin : f ∈ filter clause_filtering fs) by (by rewrite Htagged).
  apply list_elem_of_filter in Hin as [Hyes Hin].
  apply (Hno f Hin Hyes). unfold clause_centroids in Hclause. simpl in Hclause.
  destruct Hclause; congruence.
Qed.

(** The loops themselves never raise [KeyError]: row [i] of [dict_out] is
    always created before it is appended to.  Whatever the tables, the
    orders and the state they start from, if they raise it is with [line]
    unbound in [create_line]. *)
Theorem loops_raise_only_unbound_line (c : table point) (b : table polygon)
    rows cols (s : state) e :
  analysis_over c b rows cols s = Raise e → e = UnboundLocalError "line".
Proof.
  intros Hraise.
  destruct (analysis_over_cases c b rows cols s) as [(s' & Hrun & _)|Hline].
  - by rewrite Hrun in Hraise.
  - rewrite Hline in Hraise. by injection Hraise as <-.
Qed.

(** ** The matrix as a function of the building set *)


End IdField.

(** C7: the script on scenario A, in a geodatabase.  The two dictionaries
    have the claimed shape - keys 1, 2, 3 and three entries a row - but the
    rows hold the sizes of the INTERSECT selections, the pair's own two
    footprints included, where the obstruction counts are 0, 0, 1 for the
    first building, 0, 0, 0 for the second and 1, 0, 0 for the third. *)
Theorem scenario_A_rows_count_the_endpoints (single_vertex_is_point : bool) :
  ∃ out, main (scenario_A single_vertex_is_point) gdb = Ok out
    ∧ BuildingCentroids out !! 1 = Some (1, 1)%Z
    ∧ BuildingCentroids out !! 2 = Some (11, 1)%Z
    ∧ BuildingCentroids out !! 3 = Some (21, 1)%Z
    ∧ BuildingCentroids out !! 4 = None
    ∧ BuildingsIntersections out !! 1
        = Some [if single_vertex_is_point then 1 else 0; 2; 3]
    ∧ BuildingsIntersections out !! 2
        = Some [2; if single_vertex_is_point then 1 else 0; 2]
    ∧ BuildingsIntersections out !! 3
        = Some [3; 2; if single_vertex_is_point then 1 else 0]
    ∧ BuildingsIntersections out !! 4 = None
    ∧ n_between (feature_to_point (buildings_only (scenario_A single_vertex_is_point)))
                (buildings_only (scenario_A single_vertex_is_point)) 1 <$> range1 3
        = [0; 0; 1]
    ∧ n_between (feature_to_point (buildings_only (scenario_A single_vertex_is_point)))
                (buildings_only (scenario_A single_vertex_is_point)) 2 <$> range1 3
        = [0; 0; 0]
    ∧ n_between (feature_to_point (buildings_only (scenario_A single_vertex_is_point)))
                (buildings_only (scenario_A single_vertex_is_point)) 3 <$> range1 3
        = [1; 0; 0].
Proof.
  destruct single_vertex_is_point;
    (eexists; split; [eapply main_spec; vm_compute; reflexivity|]);
    vm_compute; done.
Qed.


(** Scenario A with numbered squares, in a geodatabase where the attribute
    'OID' stands beside the object id 'OBJECTID': the name found is 'OID',
    no centroid holds 1 in it, and the run stops with [line] unbound. *)
Lemma id_attribute_without_1_leaves_line_unbound_witness :
  check_object_id (centroids_fields gdb_with_oid_attribute) = Ok "OID"%string
  ∧ main (scenario_A_numbered false) gdb_with_oid_attribute
    = Raise (UnboundLocalError "line").
Proof.
  split; [vm_compute; reflexivity|].
  apply (id_attribute_without_1_leaves_line_unbound
           (scenario_A_numbered false) gdb_with_oid_attribute "OID" "OID").
  - vm_compute. reflexivity.
  - vm_compute. reflexivity.
  - vm_compute. reflexivity.
  - vm_compute. discriminate.
  - intros f Hf _.
    repeat (apply elem_of_cons in Hf as [->|Hf]); [simpl; lia..|by apply elem_of_nil in Hf].
Defined.

(** With no centroid at all the first pair already leaves [line] unbound. *)
Lemma loops_raise_only_unbound_line_witness :
  analysis_over (G := Grid.grid false) [] [] [1] [1] (fresh_layers [] [])
  = Raise (UnboundLocalError "line").
Proof.
  destruct (analysis_over (G := Grid.grid false) [] [] [1] [1] (fresh_layers [] []))
    as [[u s']|e] eqn:Hrun.
  - vm_compute in Hrun. discriminate Hrun.
  - f_equal. exact (loops_raise_only_unbound_line _ _ _ _ _ _ Hrun).
Defined.
